(** * Verification of the review pipeline of [src/main.py]

    The development embeds the functions of [src/main.py] that assemble a
    review request: [create_review_prompt], the include/exclude filter of
    [analyze_commit_files], the diff segmentation of [analyze_patch], and the
    two pipelines [process_files] and [process_patch] with the calls they make
    to the source-control client and to the completion service.

    Conventions of the embedding.
    - A Python [str] is a [string]; a character is one of the code points
      U+0000 .. U+00FF.
    - [logging] calls are left out: they do not influence control flow.
    - An exception is a value of [exn]; a call that may raise returns a
      [result]. *)

From Stdlib Require Import List Bool Arith Lia ZArith.
From Stdlib Require Import Strings.Ascii Strings.String.
Import ListNotations.

Local Open Scope list_scope.
Local Open Scope string_scope.

(* ================================================================== *)
(** * Text *)
(* ================================================================== *)

Module Text.

(** The line feed, [\n]. *)
Definition nl : ascii := ascii_of_nat 10.
Definition LF : string := String nl EmptyString.

Definition is_nl (c : ascii) : bool := Ascii.eqb c nl.

(** [str.isspace] on a single character below U+0100: the characters
    [str.strip()] removes. *)
Definition is_space (c : ascii) : bool :=
  let n := nat_of_ascii c in
  (Nat.leb 9 n && Nat.leb n 13) || (Nat.leb 28 n && Nat.leb n 32)
  || Nat.eqb n 133 || Nat.eqb n 160.

(** Python truthiness of a string: [bool(s)]. *)
Definition nonempty (s : string) : bool :=
  match s with
  | EmptyString => false
  | String _ _ => true
  end.

(** A string made of whitespace only (the empty string included). *)
Fixpoint blank (s : string) : bool :=
  match s with
  | EmptyString => true
  | String c r => is_space c && blank r
  end.

(** [s.lstrip()] *)
Fixpoint lstrip (s : string) : string :=
  match s with
  | EmptyString => EmptyString
  | String c r => if is_space c then lstrip r else s
  end.

(** [s.rstrip()] *)
Fixpoint rstrip (s : string) : string :=
  match s with
  | EmptyString => EmptyString
  | String c r =>
      match rstrip r with
      | EmptyString => if is_space c then EmptyString else String c EmptyString
      | r' => String c r'
      end
  end.

(** [s.strip()] *)
Definition strip (s : string) : string := rstrip (lstrip s).

(** The whitespace [lstrip] removes, and the whitespace [rstrip] removes. *)
Fixpoint leading (s : string) : string :=
  match s with
  | EmptyString => EmptyString
  | String c r => if is_space c then String c (leading r) else EmptyString
  end.

Fixpoint trailing (s : string) : string :=
  match s with
  | EmptyString => EmptyString
  | String c r =>
      match rstrip r with
      | EmptyString => if is_space c then s else trailing r
      | _ => trailing r
      end
  end.

(** [s.startswith(p)], returning what follows the prefix. *)
Fixpoint strip_prefix (p s : string) : option string :=
  match p with
  | EmptyString => Some s
  | String a p' =>
      match s with
      | EmptyString => None
      | String b s' => if Ascii.eqb a b then strip_prefix p' s' else None
      end
  end.

Definition starts_with (p s : string) : bool :=
  match strip_prefix p s with Some _ => true | None => false end.

(** The characters of [s] up to the first line feed, and whether [s] has
    no line feed at all. *)
Fixpoint take_line (s : string) : string :=
  match s with
  | EmptyString => EmptyString
  | String c r => if is_nl c then EmptyString else String c (take_line r)
  end.

Fixpoint no_nl (s : string) : bool :=
  match s with
  | EmptyString => true
  | String c r => negb (is_nl c) && no_nl r
  end.

(** [''.join(l)] *)
Fixpoint join (l : list string) : string :=
  match l with
  | [] => EmptyString
  | s :: r => s ++ join r
  end.

End Text.
Import Text.

(* ================================================================== *)
(** * The two regular expressions of [analyze_patch] *)
(* ================================================================== *)

Module Regex.

(** The literal of the split pattern [(?=^diff --git )]. *)
Definition diff_marker : string := "diff --git ".

(** [(?=^diff --git )] with [re.MULTILINE] matches, with empty width, at a
    position that starts a line ([bol]: start of the text or just after a line
    feed) and is followed by the marker. *)
Definition boundary (bol : bool) (s : string) : bool :=
  bol && starts_with diff_marker s.

(** [split_from bol s] cuts [s] at every boundary: the piece that runs up to
    the first boundary, and the pieces that follow. *)
Fixpoint split_from (bol : bool) (s : string) : string * list string :=
  match s with
  | EmptyString => (EmptyString, [])
  | String c r =>
      let '(piece, pieces) := split_from (is_nl c) r in
      if boundary bol s
      then (EmptyString, String c piece :: pieces)
      else (String c piece, pieces)
  end.

(** [re.split(r'(?=^diff --git )', s, flags=re.MULTILINE)] (Python 3.7 and
    later, where an empty match splits): the text before the first match comes
    first, empty when the match is at position 0. *)
Definition re_split (s : string) : list string :=
  let '(piece, pieces) := split_from true s in piece :: pieces.

(** The number of boundaries of a text: its diff headers. *)
Fixpoint count_headers (bol : bool) (s : string) : nat :=
  match s with
  | EmptyString => 0
  | String c r =>
      (if boundary bol s then 1 else 0) + count_headers (is_nl c) r
  end.

(** Greedy [.+] followed by the rest [k] of a pattern: at least one character
    other than a line feed is consumed, the longest run first, giving back one
    character at a time while [k] fails. *)
Fixpoint dot_plus {A : Type} (k : string -> option A) (s : string) : option A :=
  match s with
  | EmptyString => None
  | String c r =>
      if is_nl c then None
      else match dot_plus k r with
           | Some a => Some a
           | None => k r
           end
  end.

(** The end of the file-name pattern, [ b\/(.+)]: the group is the rest of
    the line, which must not be empty. *)
Definition dest_group (s : string) : option string :=
  match strip_prefix " b/" s with
  | None => None
  | Some d =>
      match take_line d with
      | EmptyString => None
      | g => Some g
      end
  end.

(** One attempt of [diff --git a\/.+ b\/(.+)] at a given position; the
    result is group 1. *)
Definition match_header_at (s : string) : option string :=
  match strip_prefix "diff --git a/" s with
  | None => None
  | Some r => dot_plus dest_group r
  end.

(** [re.search(r'^diff --git a\/.+ b\/(.+)', s, re.MULTILINE)]: the first
    position, from the left, that starts a line and where the pattern matches;
    [match.group(1)] when there is one. *)
Fixpoint search_header (bol : bool) (s : string) : option string :=
  match (if bol then match_header_at s else None) with
  | Some g => Some g
  | None =>
      match s with
      | EmptyString => None
      | String c r => search_header (is_nl c) r
      end
  end.

End Regex.
Import Regex.

(* ================================================================== *)
(** * Data and collaborators *)
(* ================================================================== *)

(** The commit and changed-file objects, as far as [main.py] reads them. *)
Record Commit : Type := { sha : string }.
Record FileChange : Type := { filename : string; status : string }.

(** A raised exception: its class name and [str(e)]. *)
Inductive exn : Type := Exception (name message : string).

Definition str (e : exn) : string :=
  match e with Exception _ m => m end.

Inductive result (A : Type) : Type :=
| Ok (a : A)
| Raise (e : exn).
Arguments Ok {A} a.
Arguments Raise {A} e.

(** The calls a run makes to its collaborators, in the order it makes them. *)
Inductive event : Type :=
| GetCommits (pr_id : Z)
| GetCommitFiles (commit_sha : string)
| GetFileContent (commit_sha file : string)
| GetPrPatch (pr_id : Z)
| GenerateResponse (prompt : string)
| PostComment (pr_id : Z) (body : string).

(** Modelled from the spec: [clients/github_client.py] is not among the
    sources.  The source-control collaborator of section 6 of the spec, under
    the method names [main.py] calls: [get_commits] stands for
    [get_pr(pr_id).get_commits()] ([listCommits]); only [get_file_content]
    can fail.  [W] is the state of the outside world, which every call may
    change. *)
Record GithubClient (W : Type) : Type := {
  get_commits : Z -> W -> list Commit * W;
  get_commit_files : Commit -> W -> list FileChange * W;
  get_file_content : string -> string -> W -> result string * W;
  get_pr_patch : Z -> W -> string * W;
  post_comment : Z -> string -> W -> W
}.
Arguments get_commits {W}.
Arguments get_commit_files {W}.
Arguments get_file_content {W}.
Arguments get_pr_patch {W}.
Arguments post_comment {W}.

(** Modelled from the spec: [clients/openai_client.py] is not among the
    sources.  The completion-service collaborator of section 6:
    [generate(promptText) -> string], failing with a service error. *)
Record OpenAIClient (W : Type) : Type := {
  generate_response : string -> W -> result string * W
}.
Arguments generate_response {W}.

(** Python's [re.search(pattern, text)] on a pattern the caller supplies,
    as a truth value: [Raise] is [re.error] on a malformed pattern. *)
Class RegexEngine : Type := {
  re_search : string -> string -> result bool
}.

(* ================================================================== *)
(** * A monad for calls: world state, exceptions and the call trace *)
(* ================================================================== *)

Module Eff.

Record run (W A : Type) : Type := Run {
  outcome : result A;
  world : W;
  trace : list event
}.
Arguments Run {W A}.
Arguments outcome {W A}.
Arguments world {W A}.
Arguments trace {W A}.

Definition M (W A : Type) : Type := W -> run W A.

Definition ret {W A} (a : A) : M W A :=
  fun w => Run (Ok a) w [].

Definition raise {W A} (e : exn) : M W A :=
  fun w => Run (Raise e) w [].

Definition bind {W A B} (m : M W A) (f : A -> M W B) : M W B :=
  fun w =>
    let r := m w in
    match outcome r with
    | Ok a =>
        let r' := f a (world r) in
        Run (outcome r') (world r') (trace r ++ trace r')%list
    | Raise e => Run (Raise e) (world r) (trace r)
    end.

(** [try: m  except: h] *)
Definition try_except {W A} (m : M W A) (h : exn -> M W A) : M W A :=
  fun w =>
    let r := m w in
    match outcome r with
    | Ok a => r
    | Raise e =>
        let r' := h e (world r) in
        Run (outcome r') (world r') (trace r ++ trace r')%list
    end.

(** A pure computation that may raise. *)
Definition lift {W A} (x : result A) : M W A :=
  fun w => Run x w [].

(** A call to a collaborator: the event is recorded, the world moves on. *)
Definition call {W A} (ev : event) (op : W -> A * W) : M W A :=
  fun w => let '(a, w') := op w in Run (Ok a) w' [ev].

Definition call_fallible {W A} (ev : event) (op : W -> result A * W) : M W A :=
  fun w => let '(x, w') := op w in Run x w' [ev].

End Eff.
Import Eff.

Notation "x <- m ;; k" := (bind m (fun x => k))
  (at level 61, m at next level, right associativity).
Notation "m ;;; k" := (bind m (fun _ => k))
  (at level 61, right associativity).

(* ================================================================== *)
(** * [main.py] *)
(* ================================================================== *)

(** [create_review_prompt(content, language, custom_prompt=None)],
    lines 225-276.  [if custom_prompt:] holds for a string that is present
    and not empty. *)
Definition default_prompt (content language : string) : string :=
  "Please review the following code for clarity, efficiency, and adherence to best practices."
  ++ "Identify any areas for improvement, suggest specific optimizations, and note potential bugs or security vulnerabilities. "
  ++ "Additionally, provide suggestions for how to address the identified issues, with a focus on maintainability and scalability. "
  ++ "Include examples of code where relevant. Use markdown formatting for your response:" ++ LF ++ LF
  ++ "Write this code review in the following " ++ language ++ ":" ++ LF ++ LF
  ++ "Do not write the code or guidelines in the review. Only write the review itself." ++ LF ++ LF
  ++ "### Code" ++ LF ++ "```" ++ content ++ "```" ++ LF ++ LF
  ++ "### Review Guidelines" ++ LF
  ++ "1. **Clarity**: Is the code easy to understand?" ++ LF
  ++ "2. **Efficiency**: Are there any performance improvements?" ++ LF
  ++ "3. **Best Practices**: Does the code follow standard coding conventions?" ++ LF
  ++ "4. **Bugs/Security**: Are there any potential bugs or security vulnerabilities?" ++ LF
  ++ "5. **Maintainability**: Is the code easy to maintain and scale?" ++ LF ++ LF
  ++ "### Review Example" ++ LF
  ++ "1. **Issue**: The variable names are not descriptive." ++ LF
  ++ "   **Suggestion**: Use more descriptive variable names that reflect their purpose. For example:" ++ LF
  ++ "   ```python" ++ LF
  ++ "   # Instead of this:" ++ LF
  ++ "   x = 5" ++ LF
  ++ "   # Use this:" ++ LF
  ++ "   item_count = 5" ++ LF
  ++ "   ```" ++ LF
  ++ "2. **Issue**: There is a potential SQL injection vulnerability." ++ LF
  ++ "   **Suggestion**: Use parameterized queries to prevent SQL injection. For example:" ++ LF
  ++ "   ```python" ++ LF
  ++ "   # Instead of this:" ++ LF
  ++ "   cursor.execute(f'SELECT * FROM users WHERE username = (username)')" ++ LF
  ++ "   # Use this:" ++ LF
  ++ "   cursor.execute('SELECT * FROM users WHERE username = %s', (username,))" ++ LF
  ++ "   ```".

Definition create_review_prompt
    (content language : string) (custom_prompt : option string) : string :=
  match custom_prompt with
  | Some (String _ _ as custom_prompt) =>
      custom_prompt ++ LF
      ++ "### Code" ++ LF
      ++ "```" ++ content ++ "```" ++ LF ++ LF
      ++ "Write this code review in the following " ++ language ++ ":" ++ LF ++ LF
  | _ => default_prompt content language
  end.

(** The banner of the posted review, [f"ChatGPT's code review:\n {review}"]. *)
Definition review_comment (review : string) : string :=
  "ChatGPT's code review:" ++ LF ++ " " ++ review.

Section FileMode.

Context {re : RegexEngine}.

(** [[file for file in files if keep(file)]], where [keep] may raise: the
    files are tested from left to right and the first exception ends the
    comprehension. *)
Fixpoint select (keep : FileChange -> result bool) (files : list FileChange)
  : result (list FileChange) :=
  match files with
  | [] => Ok []
  | file :: rest =>
      match keep file with
      | Raise e => Raise e
      | Ok b =>
          match select keep rest with
          | Raise e => Raise e
          | Ok kept => Ok (if b then file :: kept else kept)
          end
      end
  end.

Definition matches (pattern : string) (file : FileChange) : result bool :=
  re_search pattern (filename file).

Definition matches_not (pattern : string) (file : FileChange) : result bool :=
  match re_search pattern (filename file) with
  | Ok b => Ok (negb b)
  | Raise e => Raise e
  end.

(** Lines 167-169: [if include_regex: files = [...]]. *)
Definition apply_include (include_regex : option string) (files : list FileChange)
  : result (list FileChange) :=
  match include_regex with
  | Some (String _ _ as pattern) => select (matches pattern) files
  | _ => Ok files
  end.

(** Lines 171-173: [if exclude_regex: files = [...]]. *)
Definition apply_exclude (exclude_regex : option string) (files : list FileChange)
  : result (list FileChange) :=
  match exclude_regex with
  | Some (String _ _ as pattern) => select (matches_not pattern) files
  | _ => Ok files
  end.

(** The file-set filter, lines 167-173 of [analyze_commit_files]. *)
Definition filter_files (include_regex exclude_regex : option string)
    (files : list FileChange) : result (list FileChange) :=
  match apply_include include_regex files with
  | Raise e => Raise e
  | Ok files => apply_exclude exclude_regex files
  end.

(** The text one fetched file adds,
    [f"\n### File: {file.filename}\n```{content}```\n"]. *)
Definition file_unit (file content : string) : string :=
  LF ++ "### File: " ++ file ++ LF ++ "```" ++ content ++ "```" ++ LF.

Context {W : Type}.
Variable github_client : GithubClient W.
Variable openai_client : OpenAIClient W.

(** The loop of lines 176-182, from the value [combined_content] has when
    the loop reaches [files]. *)
Fixpoint fetch_loop (commit_sha : string) (files : list FileChange)
    (combined_content : string) : M W string :=
  match files with
  | [] => ret combined_content
  | file :: rest =>
      combined_content <-
        try_except
          (content <- call_fallible
                        (GetFileContent commit_sha (filename file))
                        (get_file_content github_client commit_sha (filename file)) ;;
           ret (combined_content ++ file_unit (filename file) content))
          (fun _ => ret combined_content) ;;
      fetch_loop commit_sha rest combined_content
  end.

(** [analyze_commit_files], lines 150-187. *)
Definition analyze_commit_files (pr_id : Z) (commit : Commit)
    (language : string) (custom_prompt include_regex exclude_regex : option string)
  : M W unit :=
  files <- call (GetCommitFiles (sha commit))
                (get_commit_files github_client commit) ;;
  files <- lift (filter_files include_regex exclude_regex files) ;;
  combined_content <- fetch_loop (sha commit) files EmptyString ;;
  review <- call_fallible
              (GenerateResponse
                 (create_review_prompt combined_content language custom_prompt))
              (generate_response openai_client
                 (create_review_prompt combined_content language custom_prompt)) ;;
  call (PostComment pr_id (review_comment review))
       (fun w => (tt, post_comment github_client pr_id (review_comment review) w)).

(** [process_files], lines 99-129: [commits[-1]] of a non-empty list. *)
Definition process_files (pr_id : Z) (language : string)
    (custom_prompt include_regex exclude_regex : option string) : M W unit :=
  commits <- call (GetCommits pr_id) (get_commits github_client pr_id) ;;
  match commits with
  | [] => ret tt
  | first_commit :: _ =>
      let last_commit := last commits first_commit in
      analyze_commit_files pr_id last_commit language custom_prompt
        include_regex exclude_regex
  end.

End FileMode.

Section PatchMode.

(** [match.group(1) if match else "Unknown file"], lines 210-211. *)
Definition unknown_file : string := "Unknown file".

Definition file_name_of (diff_text : string) : string :=
  match search_header true diff_text with
  | Some group1 => group1
  | None => unknown_file
  end.

(** The text one diff segment adds,
    [f"\n### File: {file_name}\n```diff\n{diff_text.strip()}```\n"]. *)
Definition diff_unit (file_name diff_text : string) : string :=
  LF ++ "### File: " ++ file_name ++ LF
  ++ "```diff" ++ LF ++ strip diff_text ++ "```" ++ LF.

(** The body of the [try] of lines 210-213.  Nothing in it raises. *)
Definition segment_unit (diff_text : string) : result string :=
  Ok (diff_unit (file_name_of diff_text) diff_text).

Context {W : Type}.
Variable github_client : GithubClient W.
Variable openai_client : OpenAIClient W.

Definition segment_failure_comment (e : exn) : string :=
  "ChatGPT was unable to process the diff for a file: " ++ str e.

(** The loop of lines 207-219. *)
Fixpoint segment_loop (pr_id : Z) (file_diffs : list string)
    (combined_diff : string) : M W string :=
  match file_diffs with
  | [] => ret combined_diff
  | diff_text :: rest =>
      combined_diff <-
        (if nonempty (strip diff_text)
         then
           try_except
             (unit <- lift (segment_unit diff_text) ;;
              ret (combined_diff ++ unit))
             (fun e =>
                call (PostComment pr_id (segment_failure_comment e))
                     (fun w => (tt, post_comment github_client pr_id
                                      (segment_failure_comment e) w)) ;;;
                ret combined_diff)
         else ret combined_diff) ;;
      segment_loop pr_id rest combined_diff
  end.

(** [analyze_patch], lines 189-223. *)
Definition analyze_patch (pr_id : Z) (patch_content language : string)
    (custom_prompt : option string) : M W unit :=
  combined_diff <- segment_loop pr_id (re_split patch_content) EmptyString ;;
  summary <- call_fallible
               (GenerateResponse
                  (create_review_prompt combined_diff language custom_prompt))
               (generate_response openai_client
                  (create_review_prompt combined_diff language custom_prompt)) ;;
  call (PostComment pr_id (review_comment summary))
       (fun w => (tt, post_comment github_client pr_id (review_comment summary) w)).

Definition no_changes_comment : string :=
  "Patch file does not contain any changes".

(** [process_patch], lines 131-148. *)
Definition process_patch (pr_id : Z) (language : string)
    (custom_prompt : option string) : M W unit :=
  patch_content <- call (GetPrPatch pr_id) (get_pr_patch github_client pr_id) ;;
  if nonempty patch_content
  then analyze_patch pr_id patch_content language custom_prompt
  else
    call (PostComment pr_id no_changes_comment)
         (fun w => (tt, post_comment github_client pr_id no_changes_comment w)).

End PatchMode.

(** The settings [main] reads from [env_vars], lines 29-52. *)
Record EnvVars : Type := {
  GITHUB_PR_ID : Z;
  MODE : string;
  LANGUAGE : string;
  CUSTOM_PROMPT : option string;
  INCLUDE_REGEX : option string;
  EXCLUDE_REGEX : option string
}.

Definition invalid_mode : exn :=
  Exception "ValueError" "Invalid mode. Choose either 'files' or 'patch'.".

(** [main], lines 34-52, once [env_vars] is read and the clients exist. *)
Definition main {re : RegexEngine} {W : Type}
    (github_client : GithubClient W) (openai_client : OpenAIClient W)
    (env_vars : EnvVars) : M W unit :=
  if String.eqb (MODE env_vars) "files" then
    process_files github_client openai_client
      (GITHUB_PR_ID env_vars) (LANGUAGE env_vars) (CUSTOM_PROMPT env_vars)
      (INCLUDE_REGEX env_vars) (EXCLUDE_REGEX env_vars)
  else if String.eqb (MODE env_vars) "patch" then
    process_patch github_client openai_client
      (GITHUB_PR_ID env_vars) (LANGUAGE env_vars) (CUSTOM_PROMPT env_vars)
  else raise invalid_mode.

(* ================================================================== *)
(** * Notions the properties are stated with *)
(* ================================================================== *)

Module Props.

(** ** Observations of a trace *)

Definition is_generate (ev : event) : bool :=
  match ev with GenerateResponse _ => true | _ => false end.

Definition is_post (ev : event) : bool :=
  match ev with PostComment _ _ => true | _ => false end.

Definition is_file_listing (ev : event) : bool :=
  match ev with GetCommitFiles _ => true | _ => false end.

Definition is_content_fetch (ev : event) : bool :=
  match ev with GetFileContent _ _ => true | _ => false end.

Definition count (p : event -> bool) (t : list event) : nat :=
  List.length (List.filter p t).

Definition fetch_event (commit_sha : string) (file : FileChange) : event :=
  GetFileContent commit_sha (filename file).

(** ** Subsequences *)

Inductive subseq {A : Type} : list A -> list A -> Prop :=
| subseq_nil : subseq [] []
| subseq_skip : forall x l1 l2, subseq l1 l2 -> subseq l1 (x :: l2)
| subseq_keep : forall x l1 l2, subseq l1 l2 -> subseq (x :: l1) (x :: l2).

(** ** The diff segmenter of section 4.4 of the spec

    [segment(patch)]: the retained pieces, each with its label and its
    trimmed text, in order of appearance. *)

Definition retained (patch : string) : list string :=
  List.filter (fun diff_text => nonempty (strip diff_text)) (re_split patch).

Definition bodies (patch : string) : list string :=
  List.map strip (retained patch).

Definition segments (patch : string) : list (string * string) :=
  List.map (fun diff_text => (file_name_of diff_text, strip diff_text))
           (retained patch).

(** The value of [combined_diff] after the loop. *)
Definition combined_diff_of (patch : string) : string :=
  join (List.map (fun diff_text => diff_unit (file_name_of diff_text) diff_text)
                 (retained patch)).

(** [weave [g0; g1; ...; gn] [b1; ...; bn]] is [g0 b1 g1 ... bn gn]. *)
Fixpoint weave (gaps bodies : list string) : string :=
  match gaps with
  | [] => EmptyString
  | g :: gaps' =>
      match bodies with
      | [] => g
      | b :: bodies' => g ++ b ++ weave gaps' bodies'
      end
  end.

(** A text without its whitespace characters. *)
Fixpoint squeeze (s : string) : string :=
  match s with
  | EmptyString => EmptyString
  | String c r => if is_space c then squeeze r else String c (squeeze r)
  end.

(** ** Diff-header lines

    A header line names a source and a destination path:
    [diff --git a/<src> b/<dst>], both non-empty. *)
Definition header_line (line src dst : string) : Prop :=
  line = "diff --git a/" ++ src ++ " b/" ++ dst
  /\ src <> EmptyString /\ dst <> EmptyString.

(** [g] holds no separator [ b/] with text after it. *)
Definition sep_free (g : string) : Prop :=
  forall u v, v <> EmptyString -> g <> u ++ " b/" ++ v.

(** What the pattern of line 210 captures on a line, its group 1: with the
    greedy [.+], the text after the last [ b/] of the line that has text
    after it.  This describes the pattern, not the header. *)
Definition greedy_group (line g : string) : Prop :=
  exists src, header_line line src g /\ sep_free g.

(** A path that does not hold the separator [ b/]. *)
Definition path_free (path : string) : Prop :=
  forall u v, path <> u ++ " b/" ++ v.

(** The destination-path token of a header line,
    [<dst>] in [diff --git a/<src> b/<dst>], for a header whose two paths do
    not hold [ b/]: such a line reads in one way only.  Of a header with
    [ b/] inside a path, which reads in several ways, nothing is said. *)
Definition destination_path (line dst : string) : Prop :=
  exists src, header_line line src dst /\ path_free src /\ path_free dst.

(** A line ends at the end of the text or at a line feed. *)
Definition line_end (rest : string) : Prop :=
  rest = EmptyString \/ exists r, rest = String nl r.

(** A piece of a split has no diff header past its first character. *)
Definition no_inner_header (piece : string) : Prop :=
  match piece with
  | EmptyString => True
  | String c r => count_headers (is_nl c) r = 0
  end.

(** ** File-Mode content, as section 4.1 describes it

    One fetch per surviving file, in order; a failed fetch contributes
    nothing. *)
Section Fetching.
Context {W : Type} (github_client : GithubClient W).

Fixpoint fetch_all (commit_sha : string) (files : list FileChange) (w : W)
  : list (result string) * W :=
  match files with
  | [] => ([], w)
  | file :: rest =>
      let '(x, w1) := get_file_content github_client commit_sha (filename file) w in
      let '(xs, w2) := fetch_all commit_sha rest w1 in
      (x :: xs, w2)
  end.

End Fetching.

Fixpoint aggregate (files : list FileChange) (fetched : list (result string))
  : string :=
  match files, fetched with
  | file :: files', Ok content :: fetched' =>
      file_unit (filename file) content ++ aggregate files' fetched'
  | _ :: files', Raise _ :: fetched' => aggregate files' fetched'
  | _, _ => EmptyString
  end.

(** ** The end of a run

    What both pipelines do from the completion-service call on: the review
    is posted when the service returns one, and a service error ends the
    run. *)
Definition review_tail {W : Type} (github_client : GithubClient W)
    (openai_client : OpenAIClient W) (pr_id : Z) (prompt : string) (w : W)
  : run W unit :=
  match generate_response openai_client prompt w with
  | (Ok review, w') =>
      Run (Ok tt)
          (post_comment github_client pr_id (review_comment review) w')
          [GenerateResponse prompt; PostComment pr_id (review_comment review)]
  | (Raise e, w') => Run (Raise e) w' [GenerateResponse prompt]
  end.

Definition failed {A : Type} (x : result A) : bool :=
  match x with Raise _ => true | Ok _ => false end.

(** ** Reaching the aggregation stage

    File-Mode reaches the loop of line 176 when the commit list is not empty
    and the comprehensions of lines 167-173 complete; Patch-Mode reaches the
    loop of line 207 when the patch is not empty. *)
Definition reaches_aggregation {re : RegexEngine} {W : Type}
    (github_client : GithubClient W) (env_vars : EnvVars) (w : W) : Prop :=
  if String.eqb (MODE env_vars) "files" then
    let '(commits, w1) := get_commits github_client (GITHUB_PR_ID env_vars) w in
    match commits with
    | [] => False
    | first_commit :: _ =>
        let '(files, _) :=
          get_commit_files github_client (last commits first_commit) w1 in
        exists kept,
          filter_files (INCLUDE_REGEX env_vars) (EXCLUDE_REGEX env_vars) files
          = Ok kept
    end
  else if String.eqb (MODE env_vars) "patch" then
    nonempty (fst (get_pr_patch github_client (GITHUB_PR_ID env_vars) w)) = true
  else False.

End Props.
Import Props.

(* ================================================================== *)
(** * A small world to run the pipelines in *)
(* ================================================================== *)

Module Demo.

Fixpoint contains (needle s : string) : bool :=
  starts_with needle s
  || match s with
     | EmptyString => false
     | String _ r => contains needle r
     end.

Fixpoint ends_with (suffix s : string) : bool :=
  String.eqb suffix s
  || match s with
     | EmptyString => false
     | String _ r => ends_with suffix r
     end.

(** [re.search] on three kinds of pattern: [\.py$], the malformed [(], and
    any other text read as a literal. *)
Definition engine : RegexEngine := {|
  re_search pattern text :=
    if String.eqb pattern "(" then
      Raise (Exception "re.error" "missing ), unterminated subpattern at position 0")
    else if String.eqb pattern "\.py$" then Ok (ends_with ".py" text)
    else Ok (contains pattern text)
|}.

(** The world is the list of comments on the pull request, newest last. *)
Definition World : Type := list string.

Definition github (commits : list Commit) (files : list FileChange)
    (content : string -> result string) (patch : string) : GithubClient World := {|
  get_commits _ w := (commits, w);
  get_commit_files _ w := (files, w);
  get_file_content _ file w := (content file, w);
  get_pr_patch _ w := (patch, w);
  post_comment _ body w := (w ++ [body])%list
|}.

Definition openai (answer : result string) : OpenAIClient World := {|
  generate_response _ w := (answer, w)
|}.

Definition not_found (file : string) : result string :=
  Raise (Exception "UnknownObjectException" file).

Definition a_py : FileChange := {| filename := "a.py"; status := "modified" |}.
Definition b_md : FileChange := {| filename := "b.md"; status := "added" |}.
Definition head_commit : Commit := {| sha := "c0ffee" |}.

Definition files_env (include_regex exclude_regex : option string) : EnvVars := {|
  GITHUB_PR_ID := 7; MODE := "files"; LANGUAGE := "en"; CUSTOM_PROMPT := None;
  INCLUDE_REGEX := include_regex; EXCLUDE_REGEX := exclude_regex
|}.

Definition patch_env : EnvVars := {|
  GITHUB_PR_ID := 7; MODE := "patch"; LANGUAGE := "en"; CUSTOM_PROMPT := None;
  INCLUDE_REGEX := None; EXCLUDE_REGEX := None
|}.

(** A patch of two segments: a well-formed header, then a header without
    paths. *)
Definition two_segments : string :=
  "diff --git a/x.py b/x.py" ++ LF ++ "@@ -1 +1 @@" ++ LF ++ "+print(1)" ++ LF
  ++ "diff --git broken" ++ LF ++ "+oops" ++ LF.

End Demo.

(* ================================================================== *)
(** * [get_env_vars] *)
(* ================================================================== *)

Module Config.

(** The three types of the table of lines 65-78, and [var_type.__name__]. *)
Inductive pytype : Type := py_str | py_int | py_float.

Definition type_name (t : pytype) : string :=
  match t with
  | py_str => "str"
  | py_int => "int"
  | py_float => "float"
  end.

(** [variables], lines 65-78: name, type, required. *)
Definition variables : list (string * (pytype * bool)) :=
  [ ("OPENAI_API_KEY", (py_str, true));
    ("GITHUB_TOKEN", (py_str, true));
    ("GITHUB_PR_ID", (py_int, true));
    ("OPENAI_MODEL", (py_str, true));
    ("OPENAI_TEMPERATURE", (py_float, true));
    ("OPENAI_MAX_TOKENS", (py_int, true));
    ("MODE", (py_str, true));
    ("LANGUAGE", (py_str, true));
    ("CUSTOM_PROMPT", (py_str, false));
    ("GITHUB_BASE_URL", (py_str, false));
    ("INCLUDE_REGEX", (py_str, false));
    ("EXCLUDE_REGEX", (py_str, false)) ].

(** A converted value; [F] stands for Python's [float]. *)
Inductive value (F : Type) : Type :=
| VStr (s : string)
| VInt (z : Z)
| VFloat (f : F).
Arguments VStr {F} s.
Arguments VInt {F} z.
Arguments VFloat {F} f.

(** A [dict] with string keys, in insertion order: [d[key] = v] replaces the
    value of a key that is present and appends a new key. *)
Fixpoint dict_set {V : Type} (d : list (string * V)) (key : string) (v : V)
  : list (string * V) :=
  match d with
  | [] => [(key, v)]
  | (k, v') :: rest =>
      if String.eqb k key then (k, v) :: rest
      else (k, v') :: dict_set rest key v
  end.

Fixpoint dict_get {V : Type} (d : list (string * V)) (key : string) : option V :=
  match d with
  | [] => None
  | (k, v) :: rest => if String.eqb k key then Some v else dict_get rest key
  end.

Definition keys {V : Type} (d : list (string * V)) : list string :=
  List.map fst d.

(** [except ValueError]: the class of the exception, by its name. *)
Definition is_value_error (e : exn) : bool :=
  match e with Exception name _ => String.eqb name "ValueError" end.

(** [ValueError(f"{var} must be of type {var_type.__name__}.")], line 93. *)
Definition type_error (var : string) (t : pytype) : exn :=
  Exception "ValueError" (var ++ " must be of type " ++ type_name t ++ ".").

Section Loading.

(** Python's [float], and the conversions [int(value)] and [float(value)]
    of a string, which raise on text that is no number. *)
Context {F : Type}.
Variable int_of_str : string -> result Z.
Variable float_of_str : string -> result F.

(** [utils.helpers.get_env_variable(var, required)]: the text of the
    variable, or [None], or an exception. *)
Variable get_env_variable : string -> bool -> result (option string).

(** [var_type(value)] on a string. *)
Definition convert (t : pytype) (text : string) : result (value F) :=
  match t with
  | py_str => Ok (VStr text)
  | py_int =>
      match int_of_str text with
      | Ok z => Ok (VInt z)
      | Raise e => Raise e
      end
  | py_float =>
      match float_of_str text with
      | Ok f => Ok (VFloat f)
      | Raise e => Raise e
      end
  end.

(** The loop of lines 81-95, from the dictionary built so far. *)
Fixpoint load (vars : list (string * (pytype * bool)))
    (env_vars : list (string * option (value F)))
  : result (list (string * option (value F))) :=
  match vars with
  | [] => Ok env_vars
  | (var, (var_type, required)) :: rest =>
      match get_env_variable var required with
      | Raise e => Raise e
      | Ok (Some (String _ _ as text)) =>
          match convert var_type text with
          | Ok v => load rest (dict_set env_vars var (Some v))
          | Raise e =>
              if is_value_error e then Raise (type_error var var_type)
              else Raise e
          end
      | Ok _ => load rest (dict_set env_vars var None)
      end
  end.

(** [get_env_vars()], lines 54-97. *)
Definition get_env_vars : result (list (string * option (value F))) :=
  load variables [].

(** What the loop stores for a variable whose text is [text]. *)
Definition stored (t : pytype) (text : option string)
    (entry : option (value F)) : Prop :=
  match text with
  | Some (String _ _ as text) => exists v, convert t text = Ok v /\ entry = Some v
  | _ => entry = None
  end.

End Loading.

(** An environment for the examples: decimal digits only. *)
Fixpoint digits (s : string) (acc : Z) : result Z :=
  match s with
  | EmptyString => Ok acc
  | String c r =>
      let n := nat_of_ascii c in
      if (Nat.leb 48 n && Nat.leb n 57)%bool
      then digits r (10 * acc + Z.of_nat (n - 48))
      else Raise (Exception "ValueError" "invalid literal for int() with base 10")
  end.

Definition demo_int (s : string) : result Z := digits s 0.

Definition demo_float (s : string) : result Z := digits s 0.

Definition demo_environ (pr_id : string) (var : string) (required : bool)
  : result (option string) :=
  if String.eqb var "GITHUB_PR_ID" then Ok (Some pr_id)
  else if String.eqb var "OPENAI_TEMPERATURE" then Ok (Some "1")
  else if String.eqb var "OPENAI_MAX_TOKENS" then Ok (Some "2048")
  else if String.eqb var "MODE" then Ok (Some "patch")
  else if String.eqb var "CUSTOM_PROMPT" then Ok (Some EmptyString)
  else if required then Ok (Some "set") else Ok None.

End Config.

(* ================================================================== *)
(** * Further notions *)
(* ================================================================== *)

Module Shape.

Definition is_commit_listing (ev : event) : bool :=
  match ev with GetCommits _ => true | _ => false end.

Definition is_patch_fetch (ev : event) : bool :=
  match ev with GetPrPatch _ => true | _ => false end.

(** The commit a content fetch or a file listing reads, if the event is
    one. *)
Definition commit_of (ev : event) : option string :=
  match ev with
  | GetCommitFiles commit_sha => Some commit_sha
  | GetFileContent commit_sha _ => Some commit_sha
  | _ => None
  end.

Definition first_char (s : string) : option ascii :=
  match s with
  | EmptyString => None
  | String c _ => Some c
  end.

Fixpoint last_char (s : string) : option ascii :=
  match s with
  | EmptyString => None
  | String c EmptyString => Some c
  | String _ r => last_char r
  end.

(** A text that is not empty and neither starts nor ends with whitespace. *)
Definition trimmed (s : string) : Prop :=
  (exists c, first_char s = Some c /\ is_space c = false)
  /\ (exists c, last_char s = Some c /\ is_space c = false).

(** A raised outcome. *)
Definition raised {A : Type} (x : result A) : bool :=
  match x with Raise _ => true | Ok _ => false end.

(** The settings with other patterns. *)
Definition with_patterns (env_vars : EnvVars)
    (include_regex exclude_regex : option string) : EnvVars := {|
  GITHUB_PR_ID := GITHUB_PR_ID env_vars;
  MODE := MODE env_vars;
  LANGUAGE := LANGUAGE env_vars;
  CUSTOM_PROMPT := CUSTOM_PROMPT env_vars;
  INCLUDE_REGEX := include_regex;
  EXCLUDE_REGEX := exclude_regex
|}.

(** [x] occurs in [s]. *)
Definition occurs_in (x s : string) : Prop :=
  exists pre post, s = pre ++ x ++ post.

(** The verdict of the two patterns on a file, for a matcher [m] that does
    not raise: [if include_regex:] and [if exclude_regex:] skip a pattern that
    is absent or empty. *)
Definition wanted (m : string -> string -> bool)
    (include_regex exclude_regex : option string) (file : FileChange) : bool :=
  match include_regex with
  | Some (String _ _ as pattern) => m pattern (filename file)
  | _ => true
  end
  && match exclude_regex with
     | Some (String _ _ as pattern) => negb (m pattern (filename file))
     | _ => true
     end.

(** The patterns the filter evaluates. *)
Definition used_pattern (include_regex exclude_regex : option string)
    (pattern : string) : Prop :=
  pattern <> EmptyString
  /\ (include_regex = Some pattern \/ exclude_regex = Some pattern).

(** A custom prompt that [if custom_prompt:] takes as absent. *)
Definition absent (custom_prompt : option string) : Prop :=
  custom_prompt = None \/ custom_prompt = Some EmptyString.

End Shape.
Import Shape.

(* ================================================================== *)
(** * Lemmas on text *)
(* ================================================================== *)

Section TextFacts.

Lemma append_empty_r (s : string) : s ++ EmptyString = s.
Proof. induction s as [|c s IH]; simpl; [reflexivity | now rewrite IH]. Qed.

Lemma append_assoc (s t u : string) : (s ++ t) ++ u = s ++ t ++ u.
Proof. induction s as [|c s IH]; simpl; [reflexivity | now rewrite IH]. Qed.

Lemma append_cancel_l (s t u : string) : s ++ t = s ++ u -> t = u.
Proof.
  induction s as [|c s IH]; simpl; intros H; [exact H|].
  injection H as H. now apply IH.
Qed.

Lemma length_append (s t : string) :
  String.length (s ++ t) = String.length s + String.length t.
Proof. induction s as [|c s IH]; simpl; [reflexivity | now rewrite IH]. Qed.

Lemma append_cancel_r (s t u : string) : s ++ u = t ++ u -> s = t.
Proof.
  revert t. induction s as [|c s IH]; intros t H.
  - destruct t as [|d t]; [reflexivity|].
    apply (f_equal String.length) in H. simpl in H.
    rewrite length_append in H. lia.
  - destruct t as [|d t].
    + apply (f_equal String.length) in H. simpl in H.
      rewrite length_append in H. lia.
    + simpl in H. injection H as -> H. f_equal. now apply IH.
Qed.

Lemma blank_app (s t : string) : blank (s ++ t) = blank s && blank t.
Proof.
  induction s as [|c s IH]; simpl; [reflexivity|].
  now rewrite IH, andb_assoc.
Qed.

Lemma lstrip_split (s : string) : s = leading s ++ lstrip s.
Proof.
  induction s as [|c s IH]; simpl; [reflexivity|].
  destruct (is_space c); simpl; [now rewrite <- IH | reflexivity].
Qed.

Lemma leading_blank (s : string) : blank (leading s) = true.
Proof.
  induction s as [|c s IH]; simpl; [reflexivity|].
  destruct (is_space c) eqn:E; simpl; [now rewrite E | reflexivity].
Qed.

Lemma rstrip_split (s : string) : s = rstrip s ++ trailing s.
Proof.
  induction s as [|c s IH]; simpl; [reflexivity|].
  destruct (rstrip s) as [|d r] eqn:E.
  - destruct (is_space c); simpl; [reflexivity|].
    simpl in IH. now rewrite <- IH.
  - simpl. f_equal. exact IH.
Qed.

Lemma rstrip_empty_blank (s : string) : rstrip s = EmptyString -> blank s = true.
Proof.
  induction s as [|c s IH]; simpl; [reflexivity|].
  destruct (rstrip s) as [|d r]; [|discriminate].
  destruct (is_space c); [|discriminate].
  intros _. now rewrite IH.
Qed.

Lemma trailing_blank (s : string) : blank (trailing s) = true.
Proof.
  induction s as [|c s IH]; simpl; [reflexivity|].
  destruct (rstrip s) as [|d r] eqn:E; [|exact IH].
  destruct (is_space c) eqn:Ec; [|exact IH].
  simpl. rewrite Ec. simpl. now apply rstrip_empty_blank.
Qed.

(** A string is its trimmed text between two runs of whitespace. *)
Lemma strip_split (s : string) :
  s = leading s ++ strip s ++ trailing (lstrip s).
Proof.
  unfold strip. rewrite <- rstrip_split. apply lstrip_split.
Qed.

Lemma strip_empty_blank (s : string) :
  nonempty (strip s) = false -> blank s = true.
Proof.
  intros H. rewrite (lstrip_split s), blank_app, leading_blank. simpl.
  apply rstrip_empty_blank. unfold strip in H.
  destruct (rstrip (lstrip s)); [reflexivity | discriminate].
Qed.

Lemma blank_lstrip (s : string) : blank s = true -> lstrip s = EmptyString.
Proof.
  induction s as [|c s IH]; simpl; [reflexivity|].
  destruct (is_space c); simpl; [exact IH | discriminate].
Qed.

Lemma blank_strip (s : string) : blank s = true -> strip s = EmptyString.
Proof. intros H. unfold strip. now rewrite blank_lstrip. Qed.

Lemma squeeze_app (s t : string) : squeeze (s ++ t) = squeeze s ++ squeeze t.
Proof.
  induction s as [|c s IH]; simpl; [reflexivity|].
  destruct (is_space c); simpl; now rewrite IH.
Qed.

Lemma squeeze_blank (s : string) : blank s = true -> squeeze s = EmptyString.
Proof.
  induction s as [|c s IH]; simpl; [reflexivity|].
  destruct (is_space c); simpl; [exact IH | discriminate].
Qed.

Lemma nonempty_false (s : string) : nonempty s = false -> s = EmptyString.
Proof. destruct s; [reflexivity | discriminate]. Qed.

End TextFacts.

(* ================================================================== *)
(** * The split on diff headers *)
(* ================================================================== *)

Section Splitting.

(** Splitting consumes nothing: the pieces, put back together, are the text. *)
Lemma split_from_join (s : string) :
  forall bol piece pieces,
    split_from bol s = (piece, pieces) -> piece ++ join pieces = s.
Proof.
  induction s as [|c r IH]; intros bol piece pieces H.
  - injection H as <- <-. reflexivity.
  - cbn [split_from] in H.
    destruct (split_from (is_nl c) r) as [p ps] eqn:E.
    specialize (IH _ _ _ E).
    destruct (boundary bol (String c r)); injection H as <- <-;
      simpl; now rewrite IH.
Qed.

Lemma re_split_join (patch : string) : join (re_split patch) = patch.
Proof.
  unfold re_split. destruct (split_from true patch) as [p ps] eqn:E.
  simpl. now apply split_from_join with (bol := true).
Qed.

(** The trimmed texts of the retained pieces, woven with whitespace, give
    back the pieces. *)
Lemma weave_pieces (pieces : list string) :
  exists gaps,
    List.length gaps
    = S (List.length (List.filter (fun d => nonempty (strip d)) pieces))
    /\ forallb blank gaps = true
    /\ join pieces
       = weave gaps
           (List.map strip (List.filter (fun d => nonempty (strip d)) pieces)).
Proof.
  induction pieces as [|d rest IH].
  - exists [EmptyString]. repeat split.
  - destruct IH as (gaps & Hlen & Hblank & Hjoin).
    destruct gaps as [|g gaps]; [discriminate|].
    simpl in Hblank. apply andb_prop in Hblank as [Hg Hgaps].
    cbn [List.filter]. destruct (nonempty (strip d)) eqn:Ed.
    + exists (leading d :: (trailing (lstrip d) ++ g) :: gaps).
      split; [simpl in *; lia|]. split.
      * simpl. now rewrite leading_blank, blank_app, trailing_blank, Hg.
      * cbn [List.map join weave]. rewrite Hjoin.
        rewrite (strip_split d) at 1.
        destruct (List.map strip
                    (List.filter (fun d0 => nonempty (strip d0)) rest));
          simpl; now rewrite !append_assoc.
    + exists ((d ++ g) :: gaps).
      split; [simpl in *; lia|]. split.
      * simpl. now rewrite blank_app, (strip_empty_blank d Ed), Hg.
      * cbn [join]. rewrite Hjoin.
        destruct (List.map strip
                    (List.filter (fun d0 => nonempty (strip d0)) rest));
          simpl; now rewrite ?append_assoc.
Qed.

Lemma weave_squeeze (gaps bs : list string) :
  forallb blank gaps = true ->
  List.length gaps = S (List.length bs) ->
  squeeze (weave gaps bs) = squeeze (join bs).
Proof.
  revert bs. induction gaps as [|g gaps IH]; intros bs Hb Hl; [discriminate|].
  simpl in Hb. apply andb_prop in Hb as [Hg Hgaps].
  destruct bs as [|b bs]; simpl.
  - now apply squeeze_blank.
  - rewrite !squeeze_app, (squeeze_blank g Hg). simpl.
    f_equal. apply IH; [exact Hgaps | simpl in Hl; lia].
Qed.

End Splitting.

(** C2.  For every patch, the trimmed texts of the retained segments are the
    patch with whitespace taken out at segment borders only: the patch is
    [g0 b1 g1 ... bn gn], where [b1 ... bn] are the bodies in order and every
    gap [gi] is whitespace.  Nothing but that whitespace is lost, nothing is
    duplicated or moved; in particular the patch and the concatenated bodies
    have the same non-whitespace characters in the same order. *)
Theorem segmentation_lossless (patch : string) :
  exists gaps,
    List.length gaps = S (List.length (bodies patch))
    /\ forallb blank gaps = true
    /\ patch = weave gaps (bodies patch)
    /\ squeeze (join (bodies patch)) = squeeze patch.
Proof.
  destruct (weave_pieces (re_split patch)) as (gaps & Hlen & Hblank & Hjoin).
  rewrite re_split_join in Hjoin.
  assert (Hlen' : List.length gaps = S (List.length (bodies patch))).
  { unfold bodies, retained. now rewrite length_map. }
  exists gaps. repeat split; try assumption.
  rewrite <- (weave_squeeze gaps (bodies patch) Hblank Hlen').
  f_equal. now symmetry.
Qed.

(* ================================================================== *)
(** * The file-set filter *)
(* ================================================================== *)

Section Filter.

Context {re : RegexEngine}.

Lemma subseq_refl {A : Type} (l : list A) : subseq l l.
Proof. induction l; constructor; assumption. Qed.

Lemma subseq_trans {A : Type} (l1 l2 l3 : list A) :
  subseq l1 l2 -> subseq l2 l3 -> subseq l1 l3.
Proof.
  intros H12 H23. revert l1 H12.
  induction H23 as [| x l2 l3 H IH | x l2 l3 H IH]; intros l1 H12.
  - exact H12.
  - constructor. now apply IH.
  - inversion H12; subst.
    + apply subseq_skip. now apply IH.
    + apply subseq_keep. now apply IH.
Qed.

Lemma subseq_Forall {A : Type} (P : A -> Prop) (l1 l2 : list A) :
  subseq l1 l2 -> Forall P l2 -> Forall P l1.
Proof.
  induction 1 as [| x l1 l2 H IH | x l1 l2 H IH]; intros HF.
  - constructor.
  - inversion HF; subst. now apply IH.
  - inversion HF; subst. constructor; [assumption | now apply IH].
Qed.

(** What a comprehension that completes returns: a subsequence of its input,
    all of whose elements pass the test. *)
Lemma select_sound (keep : FileChange -> result bool) (files kept : list FileChange) :
  select keep files = Ok kept ->
  subseq kept files /\ Forall (fun file => keep file = Ok true) kept.
Proof.
  revert kept. induction files as [|file rest IH]; intros kept H; simpl in H.
  - injection H as <-. split; constructor.
  - destruct (keep file) as [b|e] eqn:Ek; [|discriminate].
    destruct (select keep rest) as [kept'|e] eqn:Es; [|discriminate].
    destruct (IH _ eq_refl) as [Hsub Hall].
    injection H as <-. destruct b.
    + split; constructor; assumption.
    + split; [constructor|]; assumption.
Qed.

Lemma select_fixed (keep : FileChange -> result bool) (files : list FileChange) :
  Forall (fun file => keep file = Ok true) files ->
  select keep files = Ok files.
Proof.
  induction 1 as [|file rest Hk _ IH]; simpl; [reflexivity|].
  now rewrite Hk, IH.
Qed.

(** With well-formed patterns the comprehension always completes. *)
Lemma select_total (keep : FileChange -> result bool) (files : list FileChange) :
  (forall file, exists b, keep file = Ok b) ->
  exists kept, select keep files = Ok kept.
Proof.
  intros Hk. induction files as [|file rest [kept IH]]; simpl.
  - now exists [].
  - destruct (Hk file) as [b ->]. rewrite IH. eauto.
Qed.

Lemma apply_include_sound inc files kept :
  apply_include inc files = Ok kept ->
  subseq kept files
  /\ forall kept', subseq kept' kept -> apply_include inc kept' = Ok kept'.
Proof.
  unfold apply_include. destruct inc as [[|c p]|].
  - intros H; injection H as <-. split; [apply subseq_refl | reflexivity].
  - intros H. apply select_sound in H as [Hsub Hall]. split; [exact Hsub|].
    intros kept' Hsub'. apply select_fixed.
    now apply subseq_Forall with (l2 := kept).
  - intros H; injection H as <-. split; [apply subseq_refl | reflexivity].
Qed.

Lemma apply_exclude_sound exc files kept :
  apply_exclude exc files = Ok kept ->
  subseq kept files /\ apply_exclude exc kept = Ok kept.
Proof.
  unfold apply_exclude. destruct exc as [[|c p]|].
  - intros H; injection H as <-. split; [apply subseq_refl | reflexivity].
  - intros H. apply select_sound in H as [Hsub Hall]. split; [exact Hsub|].
    now apply select_fixed.
  - intros H; injection H as <-. split; [apply subseq_refl | reflexivity].
Qed.

End Filter.

(** C3.  Whatever the file list and the include and exclude patterns, the
    list the filter returns is a subsequence of the input (same elements, same
    order, some left out), and filtering that list again with the same
    patterns returns it unchanged. *)
Theorem filter_files_subseq_idempotent {re : RegexEngine}
    (include_regex exclude_regex : option string)
    (files kept : list FileChange) :
  filter_files include_regex exclude_regex files = Ok kept ->
  subseq kept files
  /\ filter_files include_regex exclude_regex kept = Ok kept.
Proof.
  unfold filter_files. intros H.
  destruct (apply_include include_regex files) as [mid|e] eqn:Ei; [|discriminate].
  apply apply_include_sound in Ei as [Hmid Hfix].
  apply apply_exclude_sound in H as [Hkept Hex].
  split.
  - now apply subseq_trans with (l2 := mid).
  - now rewrite (Hfix kept Hkept).
Qed.

(** The filter of the spec's scenario: include [\.py$] on [a.py, b.md]. *)
Lemma filter_files_subseq_idempotent_witness :
  @filter_files Demo.engine (Some "\.py$") None [Demo.a_py; Demo.b_md]
  = Ok [Demo.a_py]
  /\ subseq [Demo.a_py] [Demo.a_py; Demo.b_md]
  /\ @filter_files Demo.engine (Some "\.py$") None [Demo.a_py] = Ok [Demo.a_py].
Proof.
  split; [reflexivity|].
  apply (@filter_files_subseq_idempotent Demo.engine (Some "\.py$") None
           [Demo.a_py; Demo.b_md] [Demo.a_py]).
  reflexivity.
Defined.

(** When no pattern is malformed the filter returns a list. *)
Lemma filter_files_total {re : RegexEngine}
    (include_regex exclude_regex : option string) (files : list FileChange) :
  (forall pattern text, exists b, re_search pattern text = Ok b) ->
  exists kept, filter_files include_regex exclude_regex files = Ok kept.
Proof.
  intros Hre. unfold filter_files, apply_include, apply_exclude.
  assert (Hin : forall p l, exists k, select (matches p) l = Ok k).
  { intros p l. apply select_total. intros f. apply Hre. }
  assert (Hex : forall p l, exists k, select (matches_not p) l = Ok k).
  { intros p l. apply select_total. intros f. unfold matches_not.
    destruct (Hre p (filename f)) as [b ->]. eauto. }
  destruct include_regex as [[|c p]|]; destruct exclude_regex as [[|c' p']|];
    try (eexists; reflexivity).
  - apply Hex.
  - destruct (Hin (String c p) files) as [k ->]. eauto.
  - destruct (Hin (String c p) files) as [k ->]. apply Hex.
  - destruct (Hin (String c p) files) as [k ->]. eauto.
  - apply Hex.
Qed.

(* ================================================================== *)
(** * The prompt builder *)
(* ================================================================== *)

(** C4 (as the code has it).  For a custom prompt that is present and not
    empty, the prompt is the custom prompt, a line feed, the fenced content
    under [### Code], and the language line, and nothing else. *)
Theorem create_review_prompt_custom
    (content language custom_prompt : string) :
  custom_prompt <> EmptyString ->
  create_review_prompt content language (Some custom_prompt)
  = custom_prompt ++ LF ++ "### Code" ++ LF ++ "```" ++ content ++ "```" ++ LF ++ LF
    ++ "Write this code review in the following " ++ language ++ ":" ++ LF ++ LF.
Proof.
  intros H. destruct custom_prompt as [|c p]; [contradiction|]. reflexivity.
Qed.

Lemma create_review_prompt_custom_witness :
  create_review_prompt "x = 1" "en" (Some "Be brief.")
  = "Be brief." ++ LF ++ "### Code" ++ LF ++ "```" ++ "x = 1" ++ "```" ++ LF ++ LF
    ++ "Write this code review in the following " ++ "en" ++ ":" ++ LF ++ LF.
Proof.
  apply (create_review_prompt_custom "x = 1" "en" "Be brief."). discriminate.
Defined.

(** C4 as stated fails: the code puts a line feed between the custom prompt
    and [### Code]. *)
Lemma create_review_prompt_custom_counterexample :
  create_review_prompt "x = 1" "en" (Some "Be brief.")
  <> "Be brief." ++ "### Code" ++ LF ++ "```" ++ "x = 1" ++ "```" ++ LF ++ LF
     ++ "Write this code review in the following " ++ "en" ++ ":" ++ LF ++ LF.
Proof. discriminate. Qed.

(* ================================================================== *)
(** * The file-name pattern *)
(* ================================================================== *)

Section HeaderPattern.

Lemma strip_prefix_app (p q s : string) :
  strip_prefix (p ++ q) s
  = match strip_prefix p s with
    | Some r => strip_prefix q r
    | None => None
    end.
Proof.
  revert s. induction p as [|a p IH]; intros s; simpl; [reflexivity|].
  destruct s as [|b s]; [reflexivity|].
  destruct (Ascii.eqb a b); [apply IH | reflexivity].
Qed.

Lemma strip_prefix_here (p s : string) : strip_prefix p (p ++ s) = Some s.
Proof.
  induction p as [|a p IH]; simpl; [reflexivity|].
  now rewrite Ascii.eqb_refl.
Qed.

Lemma strip_prefix_some (p s r : string) :
  strip_prefix p s = Some r -> s = p ++ r.
Proof.
  revert s. induction p as [|a p IH]; intros s H; simpl in H.
  - now injection H.
  - destruct s as [|b s]; [discriminate|].
    destruct (Ascii.eqb_spec a b) as [->|]; [|discriminate].
    simpl. f_equal. now apply IH.
Qed.

Lemma starts_with_app (p s t : string) :
  starts_with p s = true -> starts_with p (s ++ t) = true.
Proof.
  unfold starts_with. destruct (strip_prefix p s) as [r|] eqn:E; [|discriminate].
  intros _. apply strip_prefix_some in E. subst s.
  now rewrite append_assoc, strip_prefix_here.
Qed.

Lemma no_nl_app (s t : string) : no_nl (s ++ t) = no_nl s && no_nl t.
Proof.
  induction s as [|c s IH]; simpl; [reflexivity|].
  now rewrite IH, andb_assoc.
Qed.

Lemma is_nl_true (c : ascii) : is_nl c = true -> c = nl.
Proof. unfold is_nl. apply Ascii.eqb_eq. Qed.

Lemma take_line_split (s : string) :
  exists rest, s = take_line s ++ rest /\ line_end rest.
Proof.
  induction s as [|c s (rest & IH & Hend)]; simpl.
  - exists EmptyString. split; [reflexivity | now left].
  - destruct (is_nl c) eqn:E.
    + exists (String c s). split; [reflexivity|].
      right. exists s. now rewrite (is_nl_true c E).
    + exists rest. simpl. split; [now rewrite <- IH | exact Hend].
Qed.

Lemma take_line_no_nl (s : string) : no_nl (take_line s) = true.
Proof.
  induction s as [|c s IH]; simpl; [reflexivity|].
  destruct (is_nl c) eqn:E; simpl; [reflexivity | now rewrite E].
Qed.

Lemma take_line_app (l rest : string) :
  no_nl l = true -> take_line (l ++ rest) = l ++ take_line rest.
Proof.
  induction l as [|c l IH]; simpl; [reflexivity|].
  intros H. apply andb_prop in H as [Hc Hl].
  destruct (is_nl c); [discriminate|]. now rewrite IH.
Qed.

Lemma take_line_end (rest : string) : line_end rest -> take_line rest = EmptyString.
Proof. intros [->|[r ->]]; reflexivity. Qed.

Lemma take_line_whole (l rest : string) :
  no_nl l = true -> line_end rest -> take_line (l ++ rest) = l.
Proof.
  intros Hl Hr. now rewrite take_line_app, take_line_end, append_empty_r.
Qed.

(** A prefix without line feed of [l ++ rest] lies within the line [l]. *)
Lemma line_prefix (x : string) :
  forall l rest z,
    no_nl x = true -> line_end rest -> l ++ rest = x ++ z ->
    exists t, l = x ++ t.
Proof.
  induction x as [|a x IH]; intros l rest z Hx Hend H.
  - now exists l.
  - simpl in Hx. apply andb_prop in Hx as [Ha Hx].
    destruct l as [|b l]; simpl in H.
    + destruct Hend as [->|[r ->]]; [discriminate|].
      injection H as <- _. discriminate.
    + injection H as -> H.
      destruct (IH l rest z Hx Hend H) as [t ->]. now exists t.
Qed.

(** ** Greedy [.+] *)

Section DotPlus.
Context {A : Type} (k : string -> option A).

Lemma dot_plus_none (s : string) :
  (forall u v, s = u ++ v -> u <> EmptyString -> no_nl u = true -> k v = None) ->
  dot_plus k s = None.
Proof.
  induction s as [|c r IH]; intros H; simpl; [reflexivity|].
  destruct (is_nl c) eqn:Ec; [reflexivity|].
  rewrite IH.
  - apply (H (String c EmptyString) r); [reflexivity | discriminate |].
    simpl. now rewrite Ec.
  - intros u v -> Hu Hn. apply (H (String c u) v); [reflexivity | discriminate |].
    simpl. now rewrite Ec.
Qed.

(** A match consumes a non-empty run [u] without line feed, and no longer
    run would do. *)
Lemma dot_plus_some (s : string) (a : A) :
  dot_plus k s = Some a ->
  exists u v, s = u ++ v /\ u <> EmptyString /\ no_nl u = true
              /\ k v = Some a /\ dot_plus k v = None.
Proof.
  induction s as [|c r IH]; simpl; [discriminate|].
  destruct (is_nl c) eqn:Ec; [discriminate|].
  destruct (dot_plus k r) as [a'|] eqn:Er.
  - intros H. injection H as ->.
    destruct (IH eq_refl) as (u & v & -> & Hu & Hn & Hk & Hlong).
    exists (String c u), v. repeat split; try assumption; try discriminate.
    simpl. now rewrite Ec.
  - intros H. exists (String c EmptyString), r.
    repeat split; try assumption; try discriminate.
    simpl. now rewrite Ec.
Qed.

Lemma dot_plus_complete (u v : string) (a : A) :
  u <> EmptyString -> no_nl u = true -> k v = Some a ->
  exists a', dot_plus k (u ++ v) = Some a'.
Proof.
  induction u as [|c u IH]; intros Hu Hn Hk; [contradiction|].
  simpl in Hn. apply andb_prop in Hn as [Hc Hn].
  simpl. destruct (is_nl c); [discriminate|].
  destruct u as [|d u].
  - simpl. destruct (dot_plus k v); eauto.
  - destruct (IH ltac:(discriminate) Hn Hk) as [a' ->]. eauto.
Qed.

End DotPlus.

Lemma dest_group_here (dst rest : string) :
  dst <> EmptyString -> no_nl dst = true -> line_end rest ->
  dest_group (" b/" ++ dst ++ rest) = Some dst.
Proof.
  intros Hd Hn Hr. unfold dest_group.
  rewrite strip_prefix_here, (take_line_whole dst rest Hn Hr).
  destruct dst; [contradiction | reflexivity].
Qed.

Lemma dest_group_some (s g : string) :
  dest_group s = Some g ->
  exists d, s = " b/" ++ d /\ g = take_line d /\ g <> EmptyString.
Proof.
  unfold dest_group. destruct (strip_prefix " b/" s) as [d|] eqn:E; [|discriminate].
  apply strip_prefix_some in E. intros H. exists d.
  destruct (take_line d) as [|c l]; [discriminate|].
  injection H as <-. repeat split; [assumption | discriminate].
Qed.

End HeaderPattern.

Section HeaderSearch.

(** The pattern matches exactly the lines that have a [greedy_group], and
    group 1 is that text. *)
Lemma match_header_at_group (s dst : string) :
  greedy_group (take_line s) dst -> match_header_at s = Some dst.
Proof.
  intros (src & (Hline & Hsrc & Hdst) & Hfree).
  destruct (take_line_split s) as (rest & Hs & Hend).
  pose proof (take_line_no_nl s) as Hn. rewrite Hline in Hn.
  change ("diff --git a/" ++ src ++ " b/" ++ dst)
    with ("diff --git a/" ++ (src ++ " b/" ++ dst)) in Hn.
  rewrite no_nl_app in Hn. apply andb_prop in Hn as [_ Hn].
  rewrite no_nl_app in Hn. apply andb_prop in Hn as [Hnsrc Hn].
  rewrite no_nl_app in Hn. apply andb_prop in Hn as [_ Hndst].
  unfold match_header_at. rewrite Hs, Hline.
  replace (("diff --git a/" ++ src ++ " b/" ++ dst) ++ rest)
    with ("diff --git a/" ++ (src ++ " b/" ++ dst ++ rest))
    by (now rewrite !append_assoc).
  rewrite strip_prefix_here.
  assert (Hnone : dot_plus dest_group (" b/" ++ dst ++ rest) = None).
  { apply dot_plus_none. intros u v Huv Hu Hnu.
    destruct (dest_group v) as [g|] eqn:Eg; [|reflexivity]. exfalso.
    apply dest_group_some in Eg as (d & -> & -> & Hg).
    destruct d as [|e d]; [now apply Hg|].
    simpl in Hg. destruct (is_nl e) eqn:Ee; [now apply Hg|].
    destruct u as [|a1 [|a2 [|a3 u]]]; [now apply Hu | | |]; simpl in Huv;
      try (injection Huv as _ Huv; discriminate);
      try (injection Huv as _ _ Huv; discriminate).
    injection Huv as _ _ _ Huv.
    simpl in Hnu. apply andb_prop in Hnu as [_ Hnu].
    apply andb_prop in Hnu as [_ Hnu]. apply andb_prop in Hnu as [_ Hnu].
    destruct (line_prefix (u ++ " b/" ++ String e EmptyString) dst rest d)
      as [t Ht].
    - rewrite no_nl_app, Hnu. simpl. now rewrite Ee.
    - exact Hend.
    - rewrite Huv. now rewrite !append_assoc.
    - apply (Hfree u (String e t)); [discriminate|].
      rewrite Ht. now rewrite !append_assoc. }
  assert (Hhere : dest_group (" b/" ++ dst ++ rest) = Some dst)
    by now apply dest_group_here.
  clear Hs Hline. remember (" b/" ++ dst ++ rest) as tail eqn:Htail.
  clear Htail.
  induction src as [|c src IH]; [contradiction|].
  simpl in Hnsrc. apply andb_prop in Hnsrc as [Hc Hnsrc].
  cbn [append dot_plus]. destruct (is_nl c); [discriminate|].
  destruct src as [|c' src].
  - cbn [append]. now rewrite Hnone.
  - rewrite IH; [reflexivity | discriminate | exact Hnsrc].
Qed.

Lemma match_header_at_sound (s g : string) :
  match_header_at s = Some g -> greedy_group (take_line s) g.
Proof.
  unfold match_header_at.
  destruct (strip_prefix "diff --git a/" s) as [r|] eqn:Ep; [|discriminate].
  apply strip_prefix_some in Ep. intros H.
  apply dot_plus_some in H as (u & v & -> & Hu & Hnu & Hk & Hlong).
  apply dest_group_some in Hk as (d & -> & -> & Hg).
  destruct (take_line_split d) as (rest & Hd & Hend).
  assert (Hline : take_line s = "diff --git a/" ++ u ++ " b/" ++ take_line d).
  { subst s.
    replace ("diff --git a/" ++ u ++ " b/" ++ d)
      with (("diff --git a/" ++ u ++ " b/") ++ d)
      by (now rewrite !append_assoc).
    rewrite take_line_app; [now rewrite !append_assoc|].
    rewrite no_nl_app. simpl. rewrite no_nl_app, Hnu. reflexivity. }
  exists u. split; [split; [exact Hline | split; assumption]|].
  intros x y Hy Hsplit.
  assert (Hn : no_nl (take_line d) = true) by apply take_line_no_nl.
  rewrite Hsplit in Hn.
  rewrite no_nl_app in Hn. apply andb_prop in Hn as [Hnx Hn].
  rewrite no_nl_app in Hn. apply andb_prop in Hn as [_ Hny].
  destruct (dot_plus_complete dest_group (" b/" ++ x) (" b/" ++ y ++ rest) y)
    as [a' Ha'].
  - discriminate.
  - rewrite no_nl_app. simpl. exact Hnx.
  - now apply dest_group_here.
  - rewrite Hd, Hsplit in Hlong.
    replace (" b/" ++ (x ++ " b/" ++ y) ++ rest)
      with ((" b/" ++ x) ++ " b/" ++ y ++ rest) in Hlong
      by (now rewrite !append_assoc).
    rewrite Ha' in Hlong. discriminate.
Qed.

(** Without a diff header there is nothing for the pattern to match. *)
Lemma match_header_at_marker (s : string) :
  starts_with diff_marker s = false -> match_header_at s = None.
Proof.
  unfold match_header_at, starts_with. intros H.
  change "diff --git a/" with (diff_marker ++ "a/").
  rewrite strip_prefix_app.
  destruct (strip_prefix diff_marker s); [discriminate | reflexivity].
Qed.

Lemma search_header_none (s : string) :
  forall bol, count_headers bol s = 0 -> search_header bol s = None.
Proof.
  induction s as [|c r IH]; intros bol H.
  - destruct bol; reflexivity.
  - cbn [count_headers] in H.
    destruct (boundary bol (String c r)) eqn:Eb; [discriminate|].
    cbn [search_header]. unfold boundary in Eb.
    destruct bol; simpl in Eb.
    + rewrite (match_header_at_marker _ Eb). now apply IH.
    + now apply IH.
Qed.

(** In a piece of a split, only the first line can be a header. *)
Lemma search_header_piece (piece : string) :
  no_inner_header piece ->
  search_header true piece = match_header_at piece.
Proof.
  destruct piece as [|c r]; simpl; intros H; [reflexivity|].
  fold (match_header_at (String c r)).
  destruct (match_header_at (String c r)); [reflexivity|].
  now apply search_header_none.
Qed.

Lemma split_from_pieces (s : string) :
  forall bol piece pieces,
    split_from bol s = (piece, pieces) ->
    count_headers bol piece = 0 /\ Forall no_inner_header pieces.
Proof.
  induction s as [|c r IH]; intros bol piece pieces H.
  - injection H as <- <-. split; [reflexivity | constructor].
  - cbn [split_from] in H.
    destruct (split_from (is_nl c) r) as [p ps] eqn:E.
    destruct (IH _ _ _ E) as [Hp Hps].
    pose proof (split_from_join _ _ _ _ E) as Hr.
    destruct (boundary bol (String c r)) eqn:Eb; injection H as <- <-.
    + split; [reflexivity|]. constructor; [exact Hp | exact Hps].
    + split; [|exact Hps]. cbn [count_headers]. rewrite Hp.
      destruct (boundary bol (String c p)) eqn:Eb'; [|reflexivity].
      unfold boundary in *. destruct bol; [|discriminate]. simpl in *.
      rewrite <- Hr in Eb.
      change (String c (p ++ join ps)) with (String c p ++ join ps) in Eb.
      rewrite (starts_with_app _ _ _ Eb') in Eb. discriminate.
Qed.

Lemma re_split_pieces (patch piece : string) :
  In piece (re_split patch) -> no_inner_header piece.
Proof.
  unfold re_split. destruct (split_from true patch) as [p ps] eqn:E.
  destruct (split_from_pieces _ _ _ _ E) as [Hp Hps].
  intros [<-|Hin].
  - destruct p as [|c r]; simpl; [exact I|].
    cbn [count_headers] in Hp. lia.
  - rewrite Forall_forall in Hps. now apply Hps.
Qed.

Lemma split_from_no_header (s : string) :
  forall bol, count_headers bol s = 0 -> split_from bol s = (s, []).
Proof.
  induction s as [|c r IH]; intros bol H; [reflexivity|].
  cbn [count_headers] in H. cbn [split_from].
  destruct (boundary bol (String c r)); [discriminate|].
  now rewrite IH.
Qed.

(** The label of a piece of a split. *)
Lemma file_name_of_group (piece dst : string) :
  greedy_group (take_line piece) dst -> file_name_of piece = dst.
Proof.
  intros H. unfold file_name_of.
  assert (Hm : match_header_at piece = Some dst) by now apply match_header_at_group.
  destruct piece as [|c r]; [discriminate|].
  cbn [search_header]. now rewrite Hm.
Qed.

Lemma file_name_of_unknown (piece : string) :
  no_inner_header piece ->
  (forall dst, ~ greedy_group (take_line piece) dst) ->
  file_name_of piece = unknown_file.
Proof.
  intros Hin Hno. unfold file_name_of. rewrite (search_header_piece _ Hin).
  destruct (match_header_at piece) as [g|] eqn:E; [|reflexivity].
  exfalso. apply (Hno g). now apply match_header_at_sound.
Qed.

Lemma take_line_id (s : string) : no_nl s = true -> take_line s = s.
Proof.
  induction s as [|c s IH]; simpl; [reflexivity|].
  intros H. apply andb_prop in H as [Hc Hs].
  destruct (is_nl c); [discriminate|]. now rewrite IH.
Qed.

(** On a header whose paths do not hold [ b/], the pattern captures the
    destination path. *)
Lemma destination_path_group (line dst : string) :
  destination_path line dst -> greedy_group line dst.
Proof.
  intros (src & Hline & _ & Hfree). exists src. split; [exact Hline|].
  intros u v _. apply Hfree.
Qed.

(** Such a header has one destination path. *)
Lemma destination_path_unique (line dst dst' : string) :
  no_nl line = true ->
  destination_path line dst -> destination_path line dst' -> dst = dst'.
Proof.
  intros Hn H H'.
  apply destination_path_group in H, H'.
  rewrite <- (take_line_id line Hn) in H, H'.
  apply match_header_at_group in H, H'.
  rewrite H in H'. now injection H'.
Qed.

Lemma file_name_of_destination (piece dst : string) :
  destination_path (take_line piece) dst -> file_name_of piece = dst.
Proof.
  intros H. apply file_name_of_group. now apply destination_path_group.
Qed.

Lemma file_name_of_no_header (piece : string) :
  no_inner_header piece ->
  (forall src dst, ~ header_line (take_line piece) src dst) ->
  file_name_of piece = unknown_file.
Proof.
  intros Hin Hno. apply file_name_of_unknown; [exact Hin|].
  intros dst (src & Hline & _). exact (Hno src dst Hline).
Qed.

End HeaderSearch.

(* ================================================================== *)
(** * Running the pipelines *)
(* ================================================================== *)

Local Arguments create_review_prompt : simpl never.
Local Arguments review_comment : simpl never.
Local Arguments diff_unit : simpl never.
Local Arguments file_unit : simpl never.
Local Arguments strip : simpl never.
Local Arguments re_split : simpl never.

Ltac unfold_eff :=
  unfold bind, try_except, call, call_fallible, lift, ret, raise; cbn.

Section Counting.

Lemma count_app (p : event -> bool) (t1 t2 : list event) :
  count p (t1 ++ t2)%list = count p t1 + count p t2.
Proof. unfold count. now rewrite filter_app, length_app. Qed.

Lemma filter_fetches (p : event -> bool) (commit_sha : string)
    (files : list FileChange) :
  (forall file, p (fetch_event commit_sha file) = false) ->
  List.filter p (List.map (fetch_event commit_sha) files) = [].
Proof.
  intros H. induction files as [|f files IH]; simpl; [reflexivity|].
  now rewrite H.
Qed.

Lemma filter_all_fetches (commit_sha : string) (files : list FileChange) :
  List.filter is_content_fetch (List.map (fetch_event commit_sha) files)
  = List.map (fetch_event commit_sha) files.
Proof.
  induction files as [|f files IH]; simpl; [reflexivity | now rewrite IH].
Qed.

End Counting.

Section Runs.

Context {re : RegexEngine} {W : Type}.
Variable github_client : GithubClient W.
Variable openai_client : OpenAIClient W.

(** The patch loop never raises and calls no collaborator: it appends the
    units of the retained pieces. *)
Lemma segment_loop_run (pr_id : Z) (pieces : list string) :
  forall combined w,
    segment_loop github_client pr_id pieces combined w
    = Run (Ok (combined
               ++ join (List.map (fun d => diff_unit (file_name_of d) d)
                          (List.filter (fun d => nonempty (strip d)) pieces))))
          w [].
Proof.
  induction pieces as [|d rest IH]; intros combined w.
  - simpl. unfold ret. now rewrite append_empty_r.
  - cbn [segment_loop List.filter]. unfold bind at 1.
    destruct (nonempty (strip d)) eqn:E.
    + unfold_eff. rewrite IH. cbn. now rewrite append_assoc.
    + unfold_eff. rewrite IH. reflexivity.
Qed.

(** The file loop fetches every file once, in order, and never raises. *)
Lemma fetch_loop_run (commit_sha : string) (files : list FileChange) :
  forall combined w,
    fetch_loop github_client commit_sha files combined w
    = Run (Ok (combined
               ++ aggregate files
                    (fst (fetch_all github_client commit_sha files w))))
          (snd (fetch_all github_client commit_sha files w))
          (List.map (fetch_event commit_sha) files).
Proof.
  induction files as [|f rest IH]; intros combined w.
  - simpl. unfold ret. now rewrite append_empty_r.
  - cbn [fetch_loop fetch_all]. unfold bind at 1.
    unfold try_except, bind, call_fallible, ret.
    destruct (get_file_content github_client commit_sha (filename f) w)
      as [[content|e] w1]; cbn; rewrite IH;
      destruct (fetch_all github_client commit_sha rest w1) as [xs w2]; cbn.
    + now rewrite append_assoc.
    + reflexivity.
Qed.

Lemma fetch_all_length (commit_sha : string) (files : list FileChange) :
  forall w,
    List.length (fst (fetch_all github_client commit_sha files w))
    = List.length files.
Proof.
  induction files as [|f rest IH]; intros w; [reflexivity|].
  cbn [fetch_all].
  destruct (get_file_content github_client commit_sha (filename f) w) as [x w1].
  specialize (IH w1).
  destruct (fetch_all github_client commit_sha rest w1) as [xs w2].
  simpl in *. now rewrite IH.
Qed.

Lemma aggregate_all_failed (files : list FileChange) :
  forall fetched,
    forallb failed fetched = true -> aggregate files fetched = EmptyString.
Proof.
  induction files as [|f rest IH]; intros fetched H; [reflexivity|].
  destruct fetched as [|[c|e] xs]; simpl in *; [reflexivity | discriminate|].
  now apply IH.
Qed.

Lemma review_tail_generate (pr_id : Z) (prompt : string) (w : W) :
  List.filter is_generate (trace (review_tail github_client openai_client pr_id prompt w))
  = [GenerateResponse prompt].
Proof.
  unfold review_tail.
  destruct (generate_response openai_client prompt w) as [[review|e] w'];
    reflexivity.
Qed.

Lemma analyze_commit_files_run (pr_id : Z) (commit : Commit) (language : string)
    (custom_prompt include_regex exclude_regex : option string)
    (w w1 : W) (files kept : list FileChange) :
  get_commit_files github_client commit w = (files, w1) ->
  filter_files include_regex exclude_regex files = Ok kept ->
  let fetched := fetch_all github_client (sha commit) kept w1 in
  let tail :=
    review_tail github_client openai_client pr_id
      (create_review_prompt (aggregate kept (fst fetched)) language custom_prompt)
      (snd fetched) in
  analyze_commit_files github_client openai_client pr_id commit language
    custom_prompt include_regex exclude_regex w
  = Run (outcome tail) (world tail)
        (GetCommitFiles (sha commit)
           :: List.map (fetch_event (sha commit)) kept ++ trace tail)%list.
Proof.
  intros Hfiles Hkept fetched tail. subst fetched tail.
  unfold analyze_commit_files, review_tail.
  unfold bind, call, call_fallible, lift.
  rewrite Hfiles. cbn. rewrite Hkept. cbn. rewrite fetch_loop_run. cbn.
  destruct (generate_response openai_client _ _) as [[review|e] w3]; cbn;
    reflexivity.
Qed.

Lemma analyze_patch_run (pr_id : Z) (patch_content language : string)
    (custom_prompt : option string) (w : W) :
  analyze_patch github_client openai_client pr_id patch_content language
    custom_prompt w
  = review_tail github_client openai_client pr_id
      (create_review_prompt (combined_diff_of patch_content) language custom_prompt)
      w.
Proof.
  unfold analyze_patch, review_tail.
  unfold bind, call, call_fallible.
  rewrite segment_loop_run. cbn.
  unfold combined_diff_of, retained.
  destruct (generate_response openai_client _ _) as [[review|e] w3]; cbn;
    reflexivity.
Qed.

End Runs.

Section Pipelines.

Context {re : RegexEngine} {W : Type}.
Variable github_client : GithubClient W.
Variable openai_client : OpenAIClient W.

Lemma process_files_run (pr_id : Z) (language : string)
    (custom_prompt include_regex exclude_regex : option string)
    (w w1 : W) (first_commit : Commit) (others : list Commit) :
  get_commits github_client pr_id w = (first_commit :: others, w1) ->
  let r := analyze_commit_files github_client openai_client pr_id
             (last (first_commit :: others) first_commit)
             language custom_prompt include_regex exclude_regex w1 in
  process_files github_client openai_client pr_id language custom_prompt
    include_regex exclude_regex w
  = Run (outcome r) (world r) (GetCommits pr_id :: trace r).
Proof.
  intros H r. subst r. unfold process_files, bind, call. rewrite H.
  reflexivity.
Qed.

Lemma process_patch_run (pr_id : Z) (language : string)
    (custom_prompt : option string) (w w1 : W) (patch : string) :
  get_pr_patch github_client pr_id w = (patch, w1) ->
  nonempty patch = true ->
  let r := review_tail github_client openai_client pr_id
             (create_review_prompt (combined_diff_of patch) language custom_prompt)
             w1 in
  process_patch github_client openai_client pr_id language custom_prompt w
  = Run (outcome r) (world r) (GetPrPatch pr_id :: trace r).
Proof.
  intros H Hne r. subst r. unfold process_patch, bind, call. rewrite H. cbn.
  rewrite Hne, analyze_patch_run. reflexivity.
Qed.

(** A patch of whitespace has no retained piece. *)
Lemma retained_blank (patch : string) : blank patch = true -> retained patch = [].
Proof.
  intros Hb. unfold retained.
  assert (Hall : forallb blank (re_split patch) = true).
  { pose proof (re_split_join patch) as Hj. rewrite <- Hj in Hb.
    clear Hj. induction (re_split patch) as [|d rest IH]; [reflexivity|].
    simpl in Hb. rewrite blank_app in Hb. apply andb_prop in Hb as [Hd Hrest].
    simpl. now rewrite Hd, IH. }
  induction (re_split patch) as [|d rest IH]; [reflexivity|].
  simpl in Hall. apply andb_prop in Hall as [Hd Hrest].
  simpl. rewrite (blank_strip d Hd). simpl. now apply IH.
Qed.

Lemma retained_no_header (patch : string) :
  count_headers true patch = 0 -> blank patch = false ->
  retained patch = [patch].
Proof.
  intros Hc Hb. unfold retained, re_split.
  rewrite (split_from_no_header patch true Hc). simpl.
  destruct (nonempty (strip patch)) eqn:E; [reflexivity|].
  apply strip_empty_blank in E. congruence.
Qed.

End Pipelines.

(* ================================================================== *)
(** * Properties of the pipelines *)
(* ================================================================== *)

(** C1.  A run that reaches the aggregation stage (File-Mode with a
    non-empty commit list whose file list passes the filter, or Patch-Mode with
    a non-empty patch) calls the completion service exactly once, whatever the
    number of files or segments, none included, and whether or not the service
    answers. *)
Theorem single_generate_call {re : RegexEngine} {W : Type}
    (github_client : GithubClient W) (openai_client : OpenAIClient W)
    (env_vars : EnvVars) (w : W) :
  reaches_aggregation github_client env_vars w ->
  count is_generate (trace (main github_client openai_client env_vars w)) = 1.
Proof.
  unfold reaches_aggregation, main.
  destruct (String.eqb (MODE env_vars) "files").
  - destruct (get_commits github_client (GITHUB_PR_ID env_vars) w)
      as [[|first_commit others] w1] eqn:Hc; [contradiction|].
    destruct (get_commit_files github_client
                (last (first_commit :: others) first_commit) w1)
      as [files w2] eqn:Hf.
    intros [kept Hk].
    rewrite (process_files_run _ _ _ _ _ _ _ _ _ _ _ Hc).
    rewrite (analyze_commit_files_run _ _ _ _ _ _ _ _ _ _ _ _ Hf Hk).
    cbn [trace]. unfold count. cbn [List.filter is_generate].
    rewrite filter_app, filter_fetches by reflexivity.
    cbn [app]. now rewrite review_tail_generate.
  - destruct (String.eqb (MODE env_vars) "patch"); [|contradiction].
    destruct (get_pr_patch github_client (GITHUB_PR_ID env_vars) w)
      as [patch w1] eqn:Hp.
    cbn [fst]. intros Hne.
    rewrite (process_patch_run _ _ _ _ _ _ _ _ Hp Hne).
    cbn [trace]. unfold count. cbn [List.filter is_generate].
    now rewrite review_tail_generate.
Qed.

(** File-Mode on two files, none of which can be fetched, with a service
    that fails: still one call. *)
Lemma single_generate_call_witness :
  count is_generate
    (trace
       (@main Demo.engine _
          (Demo.github [Demo.head_commit] [Demo.a_py; Demo.b_md]
             Demo.not_found EmptyString)
          (Demo.openai (Raise (Exception "RateLimitError" "quota")))
          (Demo.files_env None None) []))
  = 1.
Proof.
  apply (@single_generate_call Demo.engine).
  cbn. exists [Demo.a_py; Demo.b_md]. reflexivity.
Defined.

(** Without patterns, or with well-formed ones, File-Mode reaches the
    aggregation stage as soon as there is a commit. *)
Lemma files_reach_aggregation {re : RegexEngine} {W : Type}
    (github_client : GithubClient W) (env_vars : EnvVars) (w : W) :
  (forall pattern text, exists b, re_search pattern text = Ok b) ->
  MODE env_vars = "files" ->
  fst (get_commits github_client (GITHUB_PR_ID env_vars) w) <> [] ->
  reaches_aggregation github_client env_vars w.
Proof.
  intros Hre Hm Hc. unfold reaches_aggregation. rewrite Hm. cbn.
  destruct (get_commits github_client (GITHUB_PR_ID env_vars) w)
    as [[|first_commit others] w1]; [now apply Hc|].
  destruct (get_commit_files github_client _ w1) as [files w2].
  now apply filter_files_total.
Qed.

(** A malformed pattern stops File-Mode before the aggregation stage: the
    service is not called. *)
Example malformed_pattern_no_call :
  @main Demo.engine _
    (Demo.github [Demo.head_commit] [Demo.a_py] Demo.not_found EmptyString)
    (Demo.openai (Ok "LGTM")) (Demo.files_env (Some "(") None) []
  = Run (Raise (Exception "re.error"
                  "missing ), unterminated subpattern at position 0"))
        [] [GetCommits 7; GetCommitFiles "c0ffee"].
Proof. reflexivity. Qed.

(** C5 (as the code has it).  For every patch:
    - a retained segment whose first line is a header
      [diff --git a/<src> b/<dst>] with paths that do not hold [ b/] is
      labelled [<dst>], its destination-path token, and a retained segment
      whose first line is no header [diff --git a/<src> b/<dst>] at all is
      labelled ["Unknown file"] (of a header with [ b/] inside a path nothing
      is said);
    - a patch without diff header that is not all whitespace gives one
      segment, labelled ["Unknown file"], holding the trimmed patch;
    - when two segments are retained, the first with such a header and the
      second without header, they are labelled with the destination path and
      with ["Unknown file"], and the aggregated content is the two units in
      that order;
    - the loop of [analyze_patch] computes that aggregated content. *)
Theorem segment_labels (patch : string) :
  (forall seg, In seg (retained patch) ->
     (forall dst, destination_path (take_line seg) dst -> file_name_of seg = dst)
     /\ ((forall src dst, ~ header_line (take_line seg) src dst) ->
         file_name_of seg = unknown_file))
  /\ (count_headers true patch = 0 -> blank patch = false ->
      segments patch = [(unknown_file, strip patch)])
  /\ (forall d1 d2 dst,
        retained patch = [d1; d2] ->
        destination_path (take_line d1) dst ->
        (forall src d, ~ header_line (take_line d2) src d) ->
        segments patch = [(dst, strip d1); (unknown_file, strip d2)]
        /\ combined_diff_of patch
           = diff_unit dst d1 ++ diff_unit unknown_file d2)
  /\ (forall (W : Type) (github_client : GithubClient W) (pr_id : Z) (w : W),
        outcome (segment_loop github_client pr_id (re_split patch) EmptyString w)
        = Ok (combined_diff_of patch)).
Proof.
  assert (Hpiece : forall seg, In seg (retained patch) -> no_inner_header seg).
  { intros seg Hin. unfold retained in Hin. apply filter_In in Hin as [Hin _].
    now apply re_split_pieces with (patch := patch). }
  split; [|split; [|split]].
  - intros seg Hin. split.
    + apply file_name_of_destination.
    + apply file_name_of_no_header. now apply Hpiece.
  - intros Hc Hb. unfold segments. rewrite (retained_no_header patch Hc Hb).
    simpl. unfold file_name_of. now rewrite (search_header_none patch true Hc).
  - intros d1 d2 dst Hr Htok Hno.
    assert (H1 : file_name_of d1 = dst) by now apply file_name_of_destination.
    assert (H2 : file_name_of d2 = unknown_file).
    { apply file_name_of_no_header; [|exact Hno].
      apply Hpiece. rewrite Hr. right. now left. }
    unfold segments, combined_diff_of. rewrite Hr. cbn [List.map join].
    rewrite H1, H2, append_empty_r. split; reflexivity.
  - intros W github_client pr_id w. rewrite segment_loop_run. reflexivity.
Qed.

(** The two-segment patch [Demo.two_segments]: [x.py], then a header
    without paths. *)
Lemma segment_labels_witness :
  segments Demo.two_segments
  = [("x.py", "diff --git a/x.py b/x.py" ++ LF ++ "@@ -1 +1 @@" ++ LF ++ "+print(1)");
     (unknown_file, "diff --git broken" ++ LF ++ "+oops")]
  /\ segments "no header here" = [(unknown_file, "no header here")].
Proof.
  pose proof (segment_labels Demo.two_segments) as (_ & _ & Htwo & _).
  pose proof (segment_labels "no header here") as (_ & Hnone & _).
  assert (Hfree : path_free "x.py").
  { intros u v H.
    destruct u as [|a1 [|a2 [|a3 [|a4 [|a5 u]]]]]; discriminate. }
  split.
  - refine (proj1 (Htwo
       ("diff --git a/x.py b/x.py" ++ LF ++ "@@ -1 +1 @@" ++ LF ++ "+print(1)" ++ LF)
       ("diff --git broken" ++ LF ++ "+oops" ++ LF) "x.py" eq_refl _ _)).
    + exists "x.py". split; [|split; exact Hfree].
      split; [reflexivity | split; discriminate].
    + intros src d (Hline & _). discriminate.
  - apply Hnone; reflexivity.
Defined.

(** A path that holds [ b/]: the header reads in more than one way, and the
    pattern takes the text after the last separator, which is not the
    destination path.  The property of the labels leaves such headers out. *)
Example label_of_path_with_separator :
  file_name_of ("diff --git a/plan b/x.py b/plan b/x.py" ++ LF ++ "+1") = "x.py"
  /\ header_line "diff --git a/plan b/x.py b/plan b/x.py"
       "plan b/x.py" "plan b/x.py"
  /\ ~ destination_path "diff --git a/plan b/x.py b/plan b/x.py" "x.py".
Proof.
  split; [reflexivity|]. split.
  - split; [reflexivity | split; discriminate].
  - intros (src & (Hline & _) & Hsrc & _).
    injection Hline as Hline.
    apply (Hsrc "plan" "x.py b/plan").
    change ("plan b/x.py b/plan b/x.py")
      with ("plan b/x.py b/plan" ++ " b/" ++ "x.py") in Hline.
    apply append_cancel_r in Hline. now symmetry.
Qed.

(** The scenario of the spec: one header, one segment, labelled [x.py]. *)
Example one_segment :
  segments ("diff --git a/x.py b/x.py" ++ LF ++ "@@ ... @@" ++ LF
            ++ "+print(1)" ++ LF)
  = [("x.py", "diff --git a/x.py b/x.py" ++ LF ++ "@@ ... @@" ++ LF
              ++ "+print(1)")].
Proof. reflexivity. Qed.

(** Text before the first header is a segment of its own, without label. *)
Example leading_text :
  segments ("From 1f3a" ++ LF ++ "diff --git a/my file b/my file" ++ LF ++ "+1")
  = [(unknown_file, "From 1f3a");
     ("my file", "diff --git a/my file b/my file" ++ LF ++ "+1")].
Proof. reflexivity. Qed.

(** C5 as stated fails on a patch that is all whitespace: it has no diff
    header and yet gives no segment. *)
Lemma segment_labels_counterexample :
  ~ (count_headers true LF = 0 ->
     exists body, segments LF = [(unknown_file, body)]).
Proof.
  intros H. destruct (H eq_refl) as [body Hb]. discriminate.
Qed.

(** C6.  On an empty patch, Patch-Mode posts the informational comment,
    which is the only comment of the run, and does not call the completion
    service. *)
Theorem empty_patch_posts_notice {W : Type}
    (github_client : GithubClient W) (openai_client : OpenAIClient W)
    (pr_id : Z) (language : string) (custom_prompt : option string) (w w1 : W) :
  get_pr_patch github_client pr_id w = (EmptyString, w1) ->
  let r := process_patch github_client openai_client pr_id language
             custom_prompt w in
  r = Run (Ok tt) (post_comment github_client pr_id no_changes_comment w1)
          [GetPrPatch pr_id; PostComment pr_id no_changes_comment]
  /\ count is_post (trace r) = 1
  /\ count is_generate (trace r) = 0.
Proof.
  intros H r. subst r. unfold process_patch, bind, call. rewrite H. cbn.
  repeat split.
Qed.

Lemma empty_patch_posts_notice_witness :
  process_patch
    (Demo.github [Demo.head_commit] [] Demo.not_found EmptyString)
    (Demo.openai (Ok "LGTM")) 7 "en" None []
  = Run (Ok tt) ["Patch file does not contain any changes"]
        [GetPrPatch 7; PostComment 7 "Patch file does not contain any changes"].
Proof.
  apply (empty_patch_posts_notice
           (Demo.github [Demo.head_commit] [] Demo.not_found EmptyString)
           (Demo.openai (Ok "LGTM")) 7 "en" None [] []).
  reflexivity.
Defined.

(** C7.  On an empty commit list, File-Mode stops after listing the
    commits: no comment, no file listing, no content fetch, no
    completion-service call, and no exception. *)
Theorem no_commits_no_effects {re : RegexEngine} {W : Type}
    (github_client : GithubClient W) (openai_client : OpenAIClient W)
    (pr_id : Z) (language : string)
    (custom_prompt include_regex exclude_regex : option string) (w w1 : W) :
  get_commits github_client pr_id w = ([], w1) ->
  let r := process_files github_client openai_client pr_id language
             custom_prompt include_regex exclude_regex w in
  r = Run (Ok tt) w1 [GetCommits pr_id]
  /\ count is_post (trace r) = 0
  /\ count is_file_listing (trace r) = 0
  /\ count is_content_fetch (trace r) = 0
  /\ count is_generate (trace r) = 0.
Proof.
  intros H r. subst r. unfold process_files, bind, call. rewrite H. cbn.
  repeat split.
Qed.

Lemma no_commits_no_effects_witness :
  @process_files Demo.engine _
    (Demo.github [] [Demo.a_py] (fun _ => Ok "x = 1") "diff")
    (Demo.openai (Ok "LGTM")) 7 "en" None (Some "\.py$") None []
  = Run (Ok tt) [] [GetCommits 7].
Proof.
  apply (@no_commits_no_effects Demo.engine _
           (Demo.github [] [Demo.a_py] (fun _ => Ok "x = 1") "diff")
           (Demo.openai (Ok "LGTM")) 7 "en" None (Some "\.py$") None [] []).
  reflexivity.
Defined.

(** C8.  In File-Mode, once the filter has returned the surviving files:
    every surviving file is fetched, in order, whatever happened to the files
    before it; the aggregated content holds the units of the files whose fetch
    succeeded and nothing for the others; the completion service is called
    once, on the prompt built from that content; when every fetch fails the
    content is empty; and when the service returns a review, the run ends
    normally with that review posted as its one comment. *)
Theorem fetch_failures_are_skipped {re : RegexEngine} {W : Type}
    (github_client : GithubClient W) (openai_client : OpenAIClient W)
    (pr_id : Z) (language : string)
    (custom_prompt include_regex exclude_regex : option string)
    (w w1 w2 : W) (first_commit : Commit) (others : list Commit)
    (files kept : list FileChange) :
  get_commits github_client pr_id w = (first_commit :: others, w1) ->
  let commit := last (first_commit :: others) first_commit in
  get_commit_files github_client commit w1 = (files, w2) ->
  filter_files include_regex exclude_regex files = Ok kept ->
  let fetched := fetch_all github_client (sha commit) kept w2 in
  let content := aggregate kept (fst fetched) in
  let prompt := create_review_prompt content language custom_prompt in
  let r := process_files github_client openai_client pr_id language
             custom_prompt include_regex exclude_regex w in
  List.filter is_content_fetch (trace r)
  = List.map (fetch_event (sha commit)) kept
  /\ List.length (fst fetched) = List.length kept
  /\ List.filter is_generate (trace r) = [GenerateResponse prompt]
  /\ (forallb failed (fst fetched) = true -> content = EmptyString)
  /\ (forall review w3,
        generate_response openai_client prompt (snd fetched) = (Ok review, w3) ->
        r = Run (Ok tt)
                (post_comment github_client pr_id (review_comment review) w3)
                (GetCommits pr_id :: GetCommitFiles (sha commit)
                   :: List.map (fetch_event (sha commit)) kept
                   ++ [GenerateResponse prompt;
                       PostComment pr_id (review_comment review)])%list).
Proof.
  intros Hc commit Hf Hk fetched content prompt r.
  assert (Hr : r = Run (outcome (review_tail github_client openai_client
                                   pr_id prompt (snd fetched)))
                       (world (review_tail github_client openai_client
                                 pr_id prompt (snd fetched)))
                       (GetCommits pr_id :: GetCommitFiles (sha commit)
                          :: List.map (fetch_event (sha commit)) kept
                          ++ trace (review_tail github_client openai_client
                                      pr_id prompt (snd fetched)))%list).
  { subst r. rewrite (process_files_run _ _ _ _ _ _ _ _ _ _ _ Hc).
    fold commit.
    rewrite (analyze_commit_files_run _ _ _ _ _ _ _ _ _ _ _ _ Hf Hk).
    reflexivity. }
  split; [|split; [|split; [|split]]].
  - rewrite Hr. cbn [trace List.filter is_content_fetch].
    rewrite filter_app, filter_all_fetches.
    unfold review_tail.
    destruct (generate_response openai_client prompt (snd fetched))
      as [[review|e] w3]; cbn; now rewrite app_nil_r.
  - apply fetch_all_length.
  - rewrite Hr. cbn [trace List.filter is_generate].
    rewrite filter_app, filter_fetches by reflexivity.
    cbn [app]. apply review_tail_generate.
  - apply aggregate_all_failed.
  - intros review w3 Hg. rewrite Hr. unfold review_tail. rewrite Hg.
    reflexivity.
Qed.

(** Two surviving files; the fetch of the first fails, the second is
    fetched all the same and is the whole content. *)
Lemma fetch_failures_are_skipped_witness :
  @process_files Demo.engine _
    (Demo.github [Demo.head_commit] [Demo.a_py; Demo.b_md]
       (fun file => if String.eqb file "a.py" then Demo.not_found file
                    else Ok "# notes")
       EmptyString)
    (Demo.openai (Ok "LGTM")) 7 "en" None None None []
  = Run (Ok tt) [review_comment "LGTM"]
        [GetCommits 7; GetCommitFiles "c0ffee";
         GetFileContent "c0ffee" "a.py"; GetFileContent "c0ffee" "b.md";
         GenerateResponse
           (create_review_prompt (file_unit "b.md" "# notes") "en" None);
         PostComment 7 (review_comment "LGTM")].
Proof.
  refine (proj2 (proj2 (proj2 (proj2
    (@fetch_failures_are_skipped Demo.engine _
       (Demo.github [Demo.head_commit] [Demo.a_py; Demo.b_md]
          (fun file => if String.eqb file "a.py" then Demo.not_found file
                       else Ok "# notes")
          EmptyString)
       (Demo.openai (Ok "LGTM")) 7 "en" None None None [] [] []
       Demo.head_commit [] [Demo.a_py; Demo.b_md] [Demo.a_py; Demo.b_md]
       eq_refl eq_refl eq_refl)))) "LGTM" [] eq_refl).
Defined.

(** The scenario of the spec: include [\.py$] on [a.py, b.md] keeps
    [a.py]; its fetch fails; the review is requested on empty content and
    posted. *)
Example all_fetches_fail :
  @process_files Demo.engine _
    (Demo.github [Demo.head_commit] [Demo.a_py; Demo.b_md] Demo.not_found
       EmptyString)
    (Demo.openai (Ok "LGTM")) 7 "en" None (Some "\.py$") None []
  = Run (Ok tt) [review_comment "LGTM"]
        [GetCommits 7; GetCommitFiles "c0ffee"; GetFileContent "c0ffee" "a.py";
         GenerateResponse (create_review_prompt EmptyString "en" None);
         PostComment 7 (review_comment "LGTM")].
Proof. reflexivity. Qed.

(** C9.  In File-Mode, when the filter leaves no file, nothing is fetched,
    the completion service is called once, on the prompt built from the empty
    content, and, the service returning a review, that review is posted as the
    one comment of the run: the run neither stops early nor posts a notice. *)
Theorem empty_filter_still_reviews {re : RegexEngine} {W : Type}
    (github_client : GithubClient W) (openai_client : OpenAIClient W)
    (pr_id : Z) (language : string)
    (custom_prompt include_regex exclude_regex : option string)
    (w w1 w2 : W) (first_commit : Commit) (others : list Commit)
    (files : list FileChange) :
  get_commits github_client pr_id w = (first_commit :: others, w1) ->
  let commit := last (first_commit :: others) first_commit in
  get_commit_files github_client commit w1 = (files, w2) ->
  filter_files include_regex exclude_regex files = Ok [] ->
  let prompt := create_review_prompt EmptyString language custom_prompt in
  let r := process_files github_client openai_client pr_id language
             custom_prompt include_regex exclude_regex w in
  List.filter is_generate (trace r) = [GenerateResponse prompt]
  /\ count is_content_fetch (trace r) = 0
  /\ (forall review w3,
        generate_response openai_client prompt w2 = (Ok review, w3) ->
        r = Run (Ok tt)
                (post_comment github_client pr_id (review_comment review) w3)
                [GetCommits pr_id; GetCommitFiles (sha commit);
                 GenerateResponse prompt;
                 PostComment pr_id (review_comment review)]).
Proof.
  intros Hc commit Hf Hk prompt r.
  assert (Hr : r = Run (outcome (review_tail github_client openai_client
                                   pr_id prompt w2))
                       (world (review_tail github_client openai_client
                                 pr_id prompt w2))
                       (GetCommits pr_id :: GetCommitFiles (sha commit)
                          :: trace (review_tail github_client openai_client
                                      pr_id prompt w2))).
  { subst r. rewrite (process_files_run _ _ _ _ _ _ _ _ _ _ _ Hc).
    fold commit.
    rewrite (analyze_commit_files_run _ _ _ _ _ _ _ _ _ _ _ _ Hf Hk).
    reflexivity. }
  split; [|split].
  - rewrite Hr. cbn [trace List.filter is_generate].
    apply review_tail_generate.
  - rewrite Hr. unfold review_tail, count.
    destruct (generate_response openai_client prompt w2) as [[review|e] w3];
      reflexivity.
  - intros review w3 Hg. rewrite Hr. unfold review_tail. rewrite Hg.
    reflexivity.
Qed.

(** Exclude [\.py$] after include [\.py$]: nothing is left. *)
Lemma empty_filter_still_reviews_witness :
  @process_files Demo.engine _
    (Demo.github [Demo.head_commit] [Demo.a_py; Demo.b_md]
       (fun _ => Ok "x = 1") EmptyString)
    (Demo.openai (Ok "LGTM")) 7 "en" None (Some "\.py$") (Some "\.py$") []
  = Run (Ok tt) [review_comment "LGTM"]
        [GetCommits 7; GetCommitFiles "c0ffee";
         GenerateResponse (create_review_prompt EmptyString "en" None);
         PostComment 7 (review_comment "LGTM")].
Proof.
  refine (proj2 (proj2
    (@empty_filter_still_reviews Demo.engine _
       (Demo.github [Demo.head_commit] [Demo.a_py; Demo.b_md]
          (fun _ => Ok "x = 1") EmptyString)
       (Demo.openai (Ok "LGTM")) 7 "en" None (Some "\.py$") (Some "\.py$")
       [] [] [] Demo.head_commit [] [Demo.a_py; Demo.b_md]
       eq_refl eq_refl eq_refl)) "LGTM" [] eq_refl).
Defined.

(** C10.  In Patch-Mode, a patch that is not empty but all whitespace does
    not get the notice of the empty patch: no segment is retained, the
    completion service is called once, on the prompt built from the empty
    content, and, the service returning a review, that review is posted as the
    one comment of the run. *)
Theorem blank_patch_still_reviews {W : Type}
    (github_client : GithubClient W) (openai_client : OpenAIClient W)
    (pr_id : Z) (language : string) (custom_prompt : option string)
    (w w1 : W) (patch : string) :
  get_pr_patch github_client pr_id w = (patch, w1) ->
  patch <> EmptyString ->
  blank patch = true ->
  let prompt := create_review_prompt EmptyString language custom_prompt in
  let r := process_patch github_client openai_client pr_id language
             custom_prompt w in
  retained patch = []
  /\ List.filter is_generate (trace r) = [GenerateResponse prompt]
  /\ ~ In (PostComment pr_id no_changes_comment) (trace r)
  /\ (forall review w2,
        generate_response openai_client prompt w1 = (Ok review, w2) ->
        r = Run (Ok tt)
                (post_comment github_client pr_id (review_comment review) w2)
                [GetPrPatch pr_id; GenerateResponse prompt;
                 PostComment pr_id (review_comment review)]).
Proof.
  intros Hp Hne Hb prompt r.
  assert (Hnon : nonempty patch = true)
    by (destruct patch; [contradiction | reflexivity]).
  assert (Hcomb : combined_diff_of patch = EmptyString)
    by (unfold combined_diff_of; now rewrite (retained_blank patch Hb)).
  assert (Hr : r = Run (outcome (review_tail github_client openai_client
                                   pr_id prompt w1))
                       (world (review_tail github_client openai_client
                                 pr_id prompt w1))
                       (GetPrPatch pr_id
                          :: trace (review_tail github_client openai_client
                                      pr_id prompt w1))).
  { subst r prompt. rewrite (process_patch_run _ _ _ _ _ _ _ _ Hp Hnon).
    now rewrite Hcomb. }
  split; [now apply retained_blank | split; [|split]].
  - rewrite Hr. cbn [trace List.filter is_generate].
    apply review_tail_generate.
  - rewrite Hr. unfold review_tail.
    destruct (generate_response openai_client prompt w1) as [[review|e] w2];
      cbn; intros H;
      repeat (destruct H as [H|H];
              [first [ discriminate
                     | injection H as H;
                       unfold review_comment, no_changes_comment in H;
                       discriminate ] |]);
      exact H.
  - intros review w2 Hg. rewrite Hr. unfold review_tail. rewrite Hg.
    reflexivity.
Qed.

Lemma blank_patch_still_reviews_witness :
  process_patch
    (Demo.github [Demo.head_commit] [] Demo.not_found (" " ++ LF))
    (Demo.openai (Ok "LGTM")) 7 "en" None []
  = Run (Ok tt) [review_comment "LGTM"]
        [GetPrPatch 7;
         GenerateResponse (create_review_prompt EmptyString "en" None);
         PostComment 7 (review_comment "LGTM")].
Proof.
  refine (proj2 (proj2 (proj2
    (blank_patch_still_reviews
       (Demo.github [Demo.head_commit] [] Demo.not_found (" " ++ LF))
       (Demo.openai (Ok "LGTM")) 7 "en" None [] [] (" " ++ LF)
       eq_refl _ eq_refl))) "LGTM" [] eq_refl).
  discriminate.
Defined.

(* ================================================================== *)
(** * Further properties of the segmenter *)
(* ================================================================== *)

Section SegmenterFacts.

Lemma split_from_count (s : string) :
  forall bol piece pieces,
    split_from bol s = (piece, pieces) ->
    List.length pieces = count_headers bol s.
Proof.
  induction s as [|c r IH]; intros bol piece pieces H.
  - injection H as <- <-. reflexivity.
  - cbn [split_from count_headers] in *.
    destruct (split_from (is_nl c) r) as [p ps] eqn:E.
    specialize (IH _ _ _ E).
    destruct (boundary bol (String c r)); injection H as <- <-; simpl; lia.
Qed.

(** A text that begins with a run [m] free of line feed keeps [m] at the
    head of its first piece when no line starts there. *)
Lemma split_from_keeps_prefix (m : string) :
  forall s piece pieces,
    no_nl m = true -> starts_with m s = true ->
    split_from false s = (piece, pieces) ->
    starts_with m piece = true.
Proof.
  induction m as [|a m IH]; intros s piece pieces Hm Hs H; [reflexivity|].
  simpl in Hm. apply andb_prop in Hm as [Ha Hm].
  unfold starts_with in Hs. cbn [strip_prefix] in Hs.
  destruct s as [|c r]; [discriminate|].
  destruct (Ascii.eqb_spec a c) as [<-|]; [|discriminate].
  apply negb_true_iff in Ha.
  cbn [split_from] in H. unfold boundary in H. cbn [andb] in H.
  rewrite Ha in H.
  destruct (split_from false r) as [p ps] eqn:E.
  injection H as <- <-.
  unfold starts_with. cbn [strip_prefix]. rewrite Ascii.eqb_refl.
  apply (IH r p ps Hm); [|exact E].
  unfold starts_with. exact Hs.
Qed.

Lemma split_from_headed (s : string) :
  forall bol piece pieces,
    split_from bol s = (piece, pieces) ->
    Forall (fun q => starts_with diff_marker q = true) pieces.
Proof.
  induction s as [|c r IH]; intros bol piece pieces H.
  - injection H as <- <-. constructor.
  - cbn [split_from] in H.
    destruct (split_from (is_nl c) r) as [p ps] eqn:E.
    pose proof (IH _ _ _ E) as Hps.
    destruct (boundary bol (String c r)) eqn:Eb; injection H as <- <-;
      [|exact Hps].
    constructor; [|exact Hps].
    unfold boundary in Eb. apply andb_prop in Eb as [_ Eb].
    unfold starts_with, diff_marker in Eb. cbn [strip_prefix] in Eb.
    destruct (Ascii.eqb_spec "d"%char c) as [<-|]; [|discriminate].
    change (is_nl "d"%char) with false in E.
    unfold starts_with, diff_marker. cbn [strip_prefix].
    rewrite Ascii.eqb_refl.
    apply (split_from_keeps_prefix "iff --git " r p ps); [reflexivity | | exact E].
    unfold starts_with. exact Eb.
Qed.

End SegmenterFacts.

(** X1.  The split gives one piece more than the patch has diff headers. *)
Theorem re_split_length (patch : string) :
  List.length (re_split patch) = S (count_headers true patch).
Proof.
  unfold re_split. destruct (split_from true patch) as [p ps] eqn:E.
  simpl. f_equal. now apply split_from_count with (piece := p).
Qed.

(** X2.  The first piece of a split holds no diff header; every other piece
    begins with [diff --git ] and holds no further header. *)
Theorem re_split_structure (patch first : string) (others : list string) :
  re_split patch = first :: others ->
  count_headers true first = 0
  /\ Forall (fun q => starts_with diff_marker q = true /\ no_inner_header q)
            others.
Proof.
  unfold re_split. destruct (split_from true patch) as [p ps] eqn:E.
  intros H. injection H as <- <-.
  destruct (split_from_pieces _ _ _ _ E) as [Hp Hin].
  pose proof (split_from_headed _ _ _ _ E) as Hhead.
  split; [exact Hp|].
  rewrite Forall_forall in *. intros q Hq. split; auto.
Qed.

Lemma re_split_structure_witness :
  count_headers true ("intro" ++ LF) = 0
  /\ Forall (fun q => starts_with diff_marker q = true /\ no_inner_header q)
       ["diff --git a/x b/x" ++ LF; "diff --git a/y b/y"].
Proof.
  apply (re_split_structure
           ("intro" ++ LF ++ "diff --git a/x b/x" ++ LF ++ "diff --git a/y b/y")).
  reflexivity.
Defined.

Section TrimFacts.

Lemma lstrip_head (s : string) :
  lstrip s = EmptyString
  \/ exists c r, lstrip s = String c r /\ is_space c = false.
Proof.
  induction s as [|c s IH]; simpl; [now left|].
  destruct (is_space c) eqn:E; [exact IH|].
  right. now exists c, s.
Qed.

Lemma rstrip_head (c : ascii) (r : string) :
  is_space c = false -> exists r', rstrip (String c r) = String c r'.
Proof.
  intros Hc. cbn [rstrip]. rewrite Hc.
  destruct (rstrip r); eauto.
Qed.

Lemma rstrip_last (s : string) :
  rstrip s = EmptyString
  \/ exists c, last_char (rstrip s) = Some c /\ is_space c = false.
Proof.
  induction s as [|c s IH]; [now left|].
  cbn [rstrip]. destruct (rstrip s) as [|d r] eqn:E.
  - destruct (is_space c) eqn:Ec; [now left|].
    right. exists c. now split.
  - right. destruct IH as [IH|(x & Hx & Hs)]; [discriminate|].
    exists x. split; [|exact Hs]. exact Hx.
Qed.

Lemma strip_trimmed (s : string) :
  nonempty (strip s) = true -> trimmed (strip s).
Proof.
  unfold strip. intros Hne. split.
  - destruct (lstrip_head s) as [E|(c & r & E & Hc)].
    + rewrite E in Hne. discriminate.
    + rewrite E. destruct (rstrip_head c r Hc) as [r' ->].
      exists c. now split.
  - destruct (rstrip_last (lstrip s)) as [E|H]; [|exact H].
    rewrite E in Hne. discriminate.
Qed.

End TrimFacts.

(** X3.  Every body the segmenter hands on is non-empty and neither starts
    nor ends with a whitespace character. *)
Theorem bodies_trimmed (patch body : string) :
  In body (bodies patch) -> trimmed body.
Proof.
  unfold bodies, retained. intros H.
  apply in_map_iff in H as (d & <- & Hd).
  apply filter_In in Hd as [_ Hne]. now apply strip_trimmed.
Qed.

Lemma bodies_trimmed_witness :
  trimmed ("diff --git a/x b/x" ++ LF ++ "+1").
Proof.
  apply (bodies_trimmed
           (" " ++ LF ++ "diff --git a/x b/x" ++ LF ++ "+1" ++ LF ++ LF)).
  vm_compute. left. reflexivity.
Defined.

Section LabelFacts.

Lemma search_header_found (s : string) :
  forall bol g,
    search_header bol s = Some g ->
    exists s', match_header_at s' = Some g.
Proof.
  induction s as [|c r IH]; intros bol g H.
  - destruct bol; simpl in H; discriminate.
  - cbn [search_header] in H.
    destruct bol.
    + destruct (match_header_at (String c r)) as [g'|] eqn:E.
      * injection H as <-. eauto.
      * now apply IH in H.
    + now apply IH in H.
Qed.

Lemma group_shape (line dst : string) :
  no_nl line = true -> greedy_group line dst ->
  dst <> EmptyString /\ no_nl dst = true.
Proof.
  intros Hn (src & (Hline & _ & Hdst) & _). split; [exact Hdst|].
  rewrite Hline in Hn.
  change ("diff --git a/" ++ src ++ " b/" ++ dst)
    with ("diff --git a/" ++ (src ++ (" b/" ++ dst))) in Hn.
  rewrite !no_nl_app in Hn.
  apply andb_prop in Hn as [_ Hn]. apply andb_prop in Hn as [_ Hn].
  now apply andb_prop in Hn as [_ Hn].
Qed.

End LabelFacts.

(** X4.  Whatever the text of a segment, its label is not empty and holds
    no line feed: the heading [### File: <label>] is one line. *)
Theorem file_name_of_one_line (diff_text : string) :
  file_name_of diff_text <> EmptyString
  /\ no_nl (file_name_of diff_text) = true.
Proof.
  unfold file_name_of.
  destruct (search_header true diff_text) as [g|] eqn:E.
  - apply search_header_found in E as [s' Hs'].
    apply match_header_at_sound in Hs'.
    apply (group_shape (take_line s')); [apply take_line_no_nl | exact Hs'].
  - split; [discriminate | reflexivity].
Qed.

Section EmptyContent.

Lemma all_dropped_blank (pieces : list string) :
  List.filter (fun d => nonempty (strip d)) pieces = [] ->
  blank (join pieces) = true.
Proof.
  induction pieces as [|d rest IH]; [reflexivity|].
  cbn [List.filter join]. destruct (nonempty (strip d)) eqn:E; [discriminate|].
  intros H. rewrite blank_app, (strip_empty_blank d E). now apply IH.
Qed.

Lemma diff_unit_nonempty (label d : string) : diff_unit label d <> EmptyString.
Proof. unfold diff_unit, LF. discriminate. Qed.

End EmptyContent.

(** X5.  The aggregated diff is empty exactly when the patch is made of
    whitespace (the empty patch included). *)
Theorem combined_diff_empty_iff (patch : string) :
  combined_diff_of patch = EmptyString <-> blank patch = true.
Proof.
  split.
  - intros H. unfold combined_diff_of in H.
    destruct (retained patch) as [|d rest] eqn:E.
    + rewrite <- (re_split_join patch). now apply all_dropped_blank.
    + cbn [List.map join] in H. exfalso.
      destruct (diff_unit (file_name_of d) d) eqn:Eu; [|discriminate].
      now apply diff_unit_nonempty in Eu.
  - intros H. unfold combined_diff_of. now rewrite retained_blank.
Qed.

Section Concatenation.

Lemma last_char_tail (c : ascii) (s : string) :
  is_nl c = false -> last_char (String c s) = Some nl ->
  last_char s = Some nl.
Proof.
  intros Hc H. destruct s as [|d s]; [|exact H].
  simpl in H. injection H as ->. discriminate.
Qed.

Lemma starts_with_before_nl (m : string) :
  forall s b,
    no_nl m = true -> last_char s = Some nl ->
    starts_with m (s ++ b) = starts_with m s.
Proof.
  induction m as [|a m IH]; intros s b Hm Hs; [reflexivity|].
  simpl in Hm. apply andb_prop in Hm as [Ha Hm]. apply negb_true_iff in Ha.
  destruct s as [|c s]; [discriminate|].
  unfold starts_with. cbn [append strip_prefix].
  destruct (Ascii.eqb_spec a c) as [<-|]; [|reflexivity].
  apply (IH s b Hm). now apply last_char_tail with (c := a).
Qed.

Lemma split_from_headed_first (b : string) :
  starts_with diff_marker b = true -> fst (split_from true b) = EmptyString.
Proof.
  destruct b as [|c r]; [discriminate|]. intros H.
  cbn [split_from]. destruct (split_from (is_nl c) r) as [p ps].
  unfold boundary. cbn [andb]. now rewrite H.
Qed.

Lemma split_from_app (a b : string) :
  starts_with diff_marker b = true ->
  forall bol,
    last_char a = Some nl ->
    split_from bol (a ++ b)
    = (fst (split_from bol a),
       (snd (split_from bol a) ++ snd (split_from true b))%list).
Proof.
  intros Hb. induction a as [|c a IH]; intros bol Ha; [discriminate|].
  assert (Hbd : boundary bol (String c a ++ b) = boundary bol (String c a)).
  { unfold boundary. f_equal. now apply starts_with_before_nl. }
  cbn [append] in *. cbn [split_from]. rewrite Hbd.
  destruct a as [|d a].
  - injection Ha as ->. cbn [append]. change (is_nl nl) with true.
    pose proof (split_from_headed_first b Hb) as Hf.
    destruct (split_from true b) as [p ps]. cbn [fst] in Hf. subst p.
    cbn [split_from]. destruct (boundary bol (String nl EmptyString)); reflexivity.
  - rewrite (IH (is_nl c)) by exact Ha.
    destruct (split_from (is_nl c) (String d a)) as [p ps].
    cbn [fst snd].
    destruct (boundary bol (String c (String d a))); reflexivity.
Qed.

Lemma join_app (l1 l2 : list string) : join (l1 ++ l2)%list = join l1 ++ join l2.
Proof.
  induction l1 as [|s l1 IH]; simpl; [reflexivity|].
  now rewrite IH, append_assoc.
Qed.

End Concatenation.

(** X6.  Segmentation works file by file: for a patch [a] that ends with a
    line feed and a patch [b] that begins with a diff header, the pieces of
    [a ++ b] are the pieces of [a] followed by those of [b], and the
    aggregated diff of [a ++ b] is that of [a] followed by that of [b]. *)
Theorem combined_diff_app (a b : string) :
  last_char a = Some nl ->
  starts_with diff_marker b = true ->
  re_split (a ++ b) = (re_split a ++ List.tl (re_split b))%list
  /\ combined_diff_of (a ++ b) = combined_diff_of a ++ combined_diff_of b.
Proof.
  intros Ha Hb.
  assert (Hsplit : re_split (a ++ b) = (re_split a ++ List.tl (re_split b))%list).
  { unfold re_split. rewrite (split_from_app a b Hb true Ha).
    destruct (split_from true a) as [p ps].
    destruct (split_from true b) as [q qs]. reflexivity. }
  split; [exact Hsplit|].
  assert (Hret : retained (a ++ b) = (retained a ++ retained b)%list).
  { unfold retained. rewrite Hsplit, filter_app. f_equal.
    unfold re_split. pose proof (split_from_headed_first b Hb) as Hf.
    destruct (split_from true b) as [q qs]. cbn [fst] in Hf. subst q.
    reflexivity. }
  unfold combined_diff_of. now rewrite Hret, map_app, join_app.
Qed.

Lemma combined_diff_app_witness :
  combined_diff_of
    (("diff --git a/x b/x" ++ LF ++ "+1" ++ LF) ++ ("diff --git a/y b/y" ++ LF))
  = combined_diff_of ("diff --git a/x b/x" ++ LF ++ "+1" ++ LF)
    ++ combined_diff_of ("diff --git a/y b/y" ++ LF).
Proof.
  apply (combined_diff_app ("diff --git a/x b/x" ++ LF ++ "+1" ++ LF)
           ("diff --git a/y b/y" ++ LF)); reflexivity.
Defined.

(* ================================================================== *)
(** * Further properties of the file-set filter *)
(* ================================================================== *)

Section FilterFacts.

Context {re : RegexEngine}.

Lemma select_filter (keep : FileChange -> result bool) (k : FileChange -> bool)
    (files : list FileChange) :
  (forall file, In file files -> keep file = Ok (k file)) ->
  select keep files = Ok (List.filter k files).
Proof.
  induction files as [|file rest IH]; intros H; [reflexivity|].
  cbn [select List.filter]. rewrite (H file) by now left.
  rewrite IH by (intros f Hf; apply H; now right).
  reflexivity.
Qed.

Lemma select_raise (keep : FileChange -> result bool) (files : list FileChange)
    (e : exn) :
  select keep files = Raise e ->
  exists file, In file files /\ keep file = Raise e.
Proof.
  induction files as [|file rest IH]; [discriminate|].
  cbn [select]. destruct (keep file) as [b|e'] eqn:Ek.
  - destruct (select keep rest) as [kept|e'] eqn:Es; [discriminate|].
    intros H. injection H as ->.
    destruct (IH eq_refl) as (f & Hf & Hk). exists f. split; [now right | exact Hk].
  - intros H. injection H as ->. exists file. split; [now left | exact Ek].
Qed.

Lemma filter_both {A : Type} (p q : A -> bool) (l : list A) :
  List.filter q (List.filter p l) = List.filter (fun x => p x && q x) l.
Proof.
  induction l as [|x l IH]; [reflexivity|].
  cbn [List.filter]. destruct (p x); cbn [List.filter andb]; now rewrite IH.
Qed.

Lemma filter_true {A : Type} (l : list A) : List.filter (fun _ => true) l = l.
Proof. induction l as [|x l IH]; simpl; [reflexivity | now rewrite IH]. Qed.

End FilterFacts.

(** X7.  When the engine answers [m] on the patterns the filter evaluates,
    the filter keeps, in order, exactly the files whose name matches the
    include pattern and does not match the exclude pattern; a pattern that is
    absent or empty decides nothing (an empty exclude pattern removes no
    file). *)
Theorem filter_files_decides {re : RegexEngine} (m : string -> string -> bool)
    (include_regex exclude_regex : option string) (files : list FileChange) :
  (forall pattern file,
     used_pattern include_regex exclude_regex pattern -> In file files ->
     re_search pattern (filename file) = Ok (m pattern (filename file))) ->
  filter_files include_regex exclude_regex files
  = Ok (List.filter (wanted m include_regex exclude_regex) files).
Proof.
  intros H. unfold filter_files, wanted.
  set (kin := fun file : FileChange =>
                match include_regex with
                | Some (String _ _ as pattern) => m pattern (filename file)
                | _ => true
                end).
  set (kex := fun file : FileChange =>
                match exclude_regex with
                | Some (String _ _ as pattern) => negb (m pattern (filename file))
                | _ => true
                end).
  assert (Hin : apply_include include_regex files = Ok (List.filter kin files)).
  { unfold apply_include, kin. destruct include_regex as [[|c p]|];
      try (now rewrite filter_true).
    apply select_filter. intros f Hf. unfold matches.
    apply H; [|exact Hf]. split; [discriminate | now left]. }
  rewrite Hin.
  assert (Hex : apply_exclude exclude_regex (List.filter kin files)
                = Ok (List.filter kex (List.filter kin files))).
  { unfold apply_exclude, kex. destruct exclude_regex as [[|c p]|];
      try (now rewrite filter_true).
    apply select_filter. intros f Hf. apply filter_In in Hf as [Hf _].
    unfold matches_not. rewrite H; [reflexivity | | exact Hf].
    split; [discriminate | now right]. }
  rewrite Hex, filter_both. reflexivity.
Qed.

Lemma filter_files_decides_witness :
  @filter_files Demo.engine (Some "\.py$") (Some EmptyString)
    [Demo.a_py; Demo.b_md]
  = Ok [Demo.a_py].
Proof.
  apply (@filter_files_decides Demo.engine
           (fun pattern text => Demo.ends_with ".py" text)
           (Some "\.py$") (Some EmptyString) [Demo.a_py; Demo.b_md]).
  intros pattern file [Hne [H|H]] Hf.
  - injection H as <-. reflexivity.
  - injection H as <-. now contradiction Hne.
Defined.

(** X8.  When the filter raises, the exception is the one [re.search]
    raised on one of the two patterns and the name of one of the files. *)
Theorem filter_files_raise_origin {re : RegexEngine}
    (include_regex exclude_regex : option string) (files : list FileChange)
    (e : exn) :
  filter_files include_regex exclude_regex files = Raise e ->
  exists pattern file,
    used_pattern include_regex exclude_regex pattern
    /\ In file files
    /\ re_search pattern (filename file) = Raise e.
Proof.
  unfold filter_files.
  destruct (apply_include include_regex files) as [mid|e'] eqn:Ei.
  - intros Hex. apply apply_include_sound in Ei as [Hsub _].
    unfold apply_exclude in Hex.
    destruct exclude_regex as [[|c p]|]; try discriminate.
    apply select_raise in Hex as (f & Hf & Hk).
    exists (String c p), f. split; [split; [discriminate | now right]|].
    split.
    + clear Hk. induction Hsub as [| x l1 l2 _ IH | x l1 l2 _ IH].
      * exact Hf.
      * right. now apply IH.
      * destruct Hf as [<-|Hf]; [now left | right; now apply IH].
    + unfold matches_not in Hk.
      destruct (re_search (String c p) (filename f)); [discriminate | exact Hk].
  - intros H. injection H as ->. unfold apply_include in Ei.
    destruct include_regex as [[|c p]|]; try discriminate.
    apply select_raise in Ei as (f & Hf & Hk).
    exists (String c p), f. split; [split; [discriminate | now left]|].
    split; [exact Hf | exact Hk].
Qed.

Lemma filter_files_raise_origin_witness :
  exists pattern file,
    used_pattern (Some "\.py$") (Some "(") pattern
    /\ In file [Demo.a_py; Demo.b_md]
    /\ @re_search Demo.engine pattern (filename file)
       = Raise (Exception "re.error"
                  "missing ), unterminated subpattern at position 0").
Proof.
  apply (@filter_files_raise_origin Demo.engine (Some "\.py$") (Some "(")
           [Demo.a_py; Demo.b_md]).
  reflexivity.
Defined.

(* ================================================================== *)
(** * Further properties of the pipelines *)
(* ================================================================== *)

Section PipelineFacts.

Context {re : RegexEngine} {W : Type}.
Variable github_client : GithubClient W.
Variable openai_client : OpenAIClient W.

Lemma analyze_commit_files_raise (pr_id : Z) (commit : Commit) (language : string)
    (custom_prompt include_regex exclude_regex : option string)
    (w w1 : W) (files : list FileChange) (e : exn) :
  get_commit_files github_client commit w = (files, w1) ->
  filter_files include_regex exclude_regex files = Raise e ->
  analyze_commit_files github_client openai_client pr_id commit language
    custom_prompt include_regex exclude_regex w
  = Run (Raise e) w1 [GetCommitFiles (sha commit)].
Proof.
  intros Hf Hk. unfold analyze_commit_files, bind, call, lift.
  rewrite Hf. cbn. rewrite Hk. reflexivity.
Qed.

(** The shapes a File-Mode run can have. *)
Lemma process_files_cases (pr_id : Z) (language : string)
    (custom_prompt include_regex exclude_regex : option string) (w : W) :
  let r := process_files github_client openai_client pr_id language
             custom_prompt include_regex exclude_regex w in
  (exists w1, r = Run (Ok tt) w1 [GetCommits pr_id])
  \/ (exists e w2 commit_sha,
        r = Run (Raise e) w2 [GetCommits pr_id; GetCommitFiles commit_sha])
  \/ (exists commit_sha kept prompt w3,
        let tail := review_tail github_client openai_client pr_id prompt w3 in
        r = Run (outcome tail) (world tail)
              (GetCommits pr_id :: GetCommitFiles commit_sha
                 :: List.map (fetch_event commit_sha) kept ++ trace tail)%list).
Proof.
  intros r. subst r.
  destruct (get_commits github_client pr_id w) as [[|c cs] w1] eqn:Hc.
  - left. exists w1. unfold process_files, bind, call. now rewrite Hc.
  - right. rewrite (process_files_run _ _ _ _ _ _ _ _ _ _ _ Hc).
    set (commit := last (c :: cs) c).
    destruct (get_commit_files github_client commit w1) as [files w2] eqn:Hf.
    destruct (filter_files include_regex exclude_regex files) as [kept|e] eqn:Hk.
    + right. rewrite (analyze_commit_files_run _ _ _ _ _ _ _ _ _ _ _ _ Hf Hk).
      cbn [outcome world trace]. do 4 eexists. reflexivity.
    + left. rewrite (analyze_commit_files_raise _ _ _ _ _ _ _ _ _ _ Hf Hk).
      cbn [outcome world trace]. do 3 eexists. reflexivity.
Qed.

(** The shapes a Patch-Mode run can have. *)
Lemma process_patch_cases (pr_id : Z) (language : string)
    (custom_prompt : option string) (w : W) :
  let r := process_patch github_client openai_client pr_id language
             custom_prompt w in
  (exists w1, r = Run (Ok tt) w1 [GetPrPatch pr_id; PostComment pr_id no_changes_comment])
  \/ (exists prompt w1,
        let tail := review_tail github_client openai_client pr_id prompt w1 in
        r = Run (outcome tail) (world tail) (GetPrPatch pr_id :: trace tail)).
Proof.
  intros r. subst r.
  destruct (get_pr_patch github_client pr_id w) as [patch w1] eqn:Hp.
  destruct (nonempty patch) eqn:Hne.
  - right. rewrite (process_patch_run _ _ _ _ _ _ _ _ Hp Hne).
    cbn [outcome world trace]. do 2 eexists. reflexivity.
  - left. unfold process_patch, bind, call. rewrite Hp. cbn. rewrite Hne.
    eexists. reflexivity.
Qed.

(** The shapes of the end of a run. *)
Lemma review_tail_cases (pr_id : Z) (prompt : string) (w : W) :
  let tail := review_tail github_client openai_client pr_id prompt w in
  (exists review,
     outcome tail = Ok tt
     /\ trace tail = [GenerateResponse prompt;
                      PostComment pr_id (review_comment review)])
  \/ (exists e, outcome tail = Raise e /\ trace tail = [GenerateResponse prompt]).
Proof.
  intros tail. subst tail. unfold review_tail.
  destruct (generate_response openai_client prompt w) as [[review|e] w'].
  - left. exists review. now split.
  - right. exists e. now split.
Qed.

End PipelineFacts.

(** X9.  A pattern on which [re.search] raises ends File-Mode with that
    exception right after the file listing: no content is fetched, the
    completion service is not called and no comment is posted. *)
Theorem malformed_pattern_aborts {re : RegexEngine} {W : Type}
    (github_client : GithubClient W) (openai_client : OpenAIClient W)
    (pr_id : Z) (language : string)
    (custom_prompt include_regex exclude_regex : option string)
    (w w1 w2 : W) (first_commit : Commit) (others : list Commit)
    (files : list FileChange) (e : exn) :
  get_commits github_client pr_id w = (first_commit :: others, w1) ->
  let commit := last (first_commit :: others) first_commit in
  get_commit_files github_client commit w1 = (files, w2) ->
  filter_files include_regex exclude_regex files = Raise e ->
  process_files github_client openai_client pr_id language custom_prompt
    include_regex exclude_regex w
  = Run (Raise e) w2 [GetCommits pr_id; GetCommitFiles (sha commit)].
Proof.
  intros Hc commit Hf Hk.
  rewrite (process_files_run _ _ _ _ _ _ _ _ _ _ _ Hc). fold commit.
  now rewrite (analyze_commit_files_raise _ _ _ _ _ _ _ _ _ _ _ _ Hf Hk).
Qed.

Lemma malformed_pattern_aborts_witness :
  @process_files Demo.engine _
    (Demo.github [Demo.head_commit] [Demo.a_py] (fun _ => Ok "x = 1") EmptyString)
    (Demo.openai (Ok "LGTM")) 7 "en" None None (Some "(") []
  = Run (Raise (Exception "re.error"
                  "missing ), unterminated subpattern at position 0"))
        [] [GetCommits 7; GetCommitFiles "c0ffee"].
Proof.
  apply (@malformed_pattern_aborts Demo.engine _
           (Demo.github [Demo.head_commit] [Demo.a_py] (fun _ => Ok "x = 1")
              EmptyString)
           (Demo.openai (Ok "LGTM")) 7 "en" None None (Some "(")
           [] [] [] Demo.head_commit [] [Demo.a_py]); reflexivity.
Defined.

(** X10.  Whatever the settings and the world, a run of [main] calls the
    completion service at most once and posts at most one comment, and a run
    that ends with an exception has posted none. *)
Theorem run_bounds {re : RegexEngine} {W : Type}
    (github_client : GithubClient W) (openai_client : OpenAIClient W)
    (env_vars : EnvVars) (w : W) :
  let r := main github_client openai_client env_vars w in
  count is_generate (trace r) <= 1
  /\ count is_post (trace r) <= 1
  /\ (raised (outcome r) = true -> count is_post (trace r) = 0).
Proof.
  intros r. subst r. unfold main.
  destruct (String.eqb (MODE env_vars) "files").
  - destruct (process_files_cases github_client openai_client
                (GITHUB_PR_ID env_vars) (LANGUAGE env_vars)
                (CUSTOM_PROMPT env_vars) (INCLUDE_REGEX env_vars)
                (EXCLUDE_REGEX env_vars) w)
      as [(w1 & ->)|[(e & w2 & s & ->)|(s & kept & prompt & w3 & ->)]].
    + cbn. repeat split; try lia.
    + cbn. repeat split; try lia.
    + cbn [trace outcome]. unfold count. cbn [List.filter is_generate is_post].
      rewrite !filter_app, !filter_fetches by reflexivity. cbn [app].
      destruct (review_tail_cases github_client openai_client
                  (GITHUB_PR_ID env_vars) prompt w3)
        as [(review & -> & ->)|(e & -> & ->)]; cbn;
        repeat split; try lia; discriminate.
  - destruct (String.eqb (MODE env_vars) "patch").
    + destruct (process_patch_cases github_client openai_client
                  (GITHUB_PR_ID env_vars) (LANGUAGE env_vars)
                  (CUSTOM_PROMPT env_vars) w)
        as [(w1 & ->)|(prompt & w1 & ->)].
      * cbn. repeat split; try lia; discriminate.
      * cbn [trace outcome]. unfold count. cbn [List.filter is_generate is_post].
        destruct (review_tail_cases github_client openai_client
                    (GITHUB_PR_ID env_vars) prompt w1)
          as [(review & -> & ->)|(e & -> & ->)]; cbn;
          repeat split; try lia; discriminate.
    + cbn. repeat split; lia.
Qed.

Lemma run_bounds_witness :
  count is_post
    (trace
       (@main Demo.engine _
          (Demo.github [Demo.head_commit] [Demo.a_py] (fun _ => Ok "x = 1")
             EmptyString)
          (Demo.openai (Raise (Exception "RateLimitError" "quota")))
          (Demo.files_env None None) []))
  = 0.
Proof.
  apply (@run_bounds Demo.engine _
           (Demo.github [Demo.head_commit] [Demo.a_py] (fun _ => Ok "x = 1")
              EmptyString)
           (Demo.openai (Raise (Exception "RateLimitError" "quota")))
           (Demo.files_env None None) []).
  reflexivity.
Defined.

(** X11.  A mode other than ["files"] and ["patch"] (the comparison is
    exact: ["Files"] is such a mode) makes [main] raise its [ValueError]
    without calling any collaborator. *)
Theorem invalid_mode_raises {re : RegexEngine} {W : Type}
    (github_client : GithubClient W) (openai_client : OpenAIClient W)
    (env_vars : EnvVars) (w : W) :
  MODE env_vars <> "files" -> MODE env_vars <> "patch" ->
  main github_client openai_client env_vars w = Run (Raise invalid_mode) w [].
Proof.
  intros Hf Hp. unfold main.
  apply String.eqb_neq in Hf, Hp. now rewrite Hf, Hp.
Qed.

Lemma invalid_mode_raises_witness :
  @main Demo.engine _
    (Demo.github [Demo.head_commit] [Demo.a_py] (fun _ => Ok "x = 1") "diff")
    (Demo.openai (Ok "LGTM"))
    {| GITHUB_PR_ID := 7; MODE := "Files"; LANGUAGE := "en";
       CUSTOM_PROMPT := None; INCLUDE_REGEX := None; EXCLUDE_REGEX := None |}
    []
  = Run (Raise invalid_mode) [] [].
Proof.
  apply (@invalid_mode_raises Demo.engine); discriminate.
Defined.

(** X12.  Patch-Mode does not look at the include and exclude patterns nor
    at the regular-expression engine: with other patterns, malformed ones
    included, and another engine, the run is the same. *)
Theorem patch_mode_ignores_patterns {re re' : RegexEngine} {W : Type}
    (github_client : GithubClient W) (openai_client : OpenAIClient W)
    (env_vars : EnvVars) (include_regex exclude_regex : option string) (w : W) :
  MODE env_vars = "patch" ->
  @main re W github_client openai_client env_vars w
  = @main re' W github_client openai_client
      (with_patterns env_vars include_regex exclude_regex) w.
Proof.
  intros H. unfold main, with_patterns. cbn. now rewrite H.
Qed.

Lemma patch_mode_ignores_patterns_witness :
  @main Demo.engine _
    (Demo.github [] [] Demo.not_found Demo.two_segments)
    (Demo.openai (Ok "LGTM")) Demo.patch_env []
  = @main {| re_search _ _ := Ok true |} _
      (Demo.github [] [] Demo.not_found Demo.two_segments)
      (Demo.openai (Ok "LGTM"))
      (with_patterns Demo.patch_env (Some "(") (Some "(")) [].
Proof.
  apply (@patch_mode_ignores_patterns Demo.engine). reflexivity.
Defined.

Section ServiceFacts.

Context {W : Type}.
Variable github_client : GithubClient W.
Variable openai_client : OpenAIClient W.

Lemma review_tail_raise (pr_id : Z) (prompt : string) (w : W) (e : exn) :
  fst (generate_response openai_client prompt w) = Raise e ->
  outcome (review_tail github_client openai_client pr_id prompt w) = Raise e
  /\ trace (review_tail github_client openai_client pr_id prompt w)
     = [GenerateResponse prompt].
Proof.
  unfold review_tail.
  destruct (generate_response openai_client prompt w) as [[review|e'] w'];
    cbn; intros H; [discriminate|].
  injection H as ->. now split.
Qed.

Lemma aggregate_all_fetched (content_of : string -> string) (commit_sha : string)
    (files : list FileChange) :
  (forall file w, exists w',
      get_file_content github_client commit_sha file w
      = (Ok (content_of file), w')) ->
  forall w,
    aggregate files (fst (fetch_all github_client commit_sha files w))
    = join (List.map (fun file => file_unit (filename file)
                                    (content_of (filename file)))
                     files).
Proof.
  intros H. induction files as [|f rest IH]; intros w; [reflexivity|].
  cbn [fetch_all]. destruct (H (filename f) w) as [w' ->].
  specialize (IH w').
  destruct (fetch_all github_client commit_sha rest w') as [xs w2].
  cbn [fst aggregate List.map join] in *. now rewrite IH.
Qed.

End ServiceFacts.

(** X13.  An exception of the completion service ends the run with that
    exception, after the one call, and no comment is posted: neither mode
    catches it. *)
Theorem service_error_propagates {re : RegexEngine} {W : Type}
    (github_client : GithubClient W) (openai_client : OpenAIClient W)
    (env_vars : EnvVars) (w : W) (e : exn) :
  reaches_aggregation github_client env_vars w ->
  (forall prompt w', fst (generate_response openai_client prompt w') = Raise e) ->
  let r := main github_client openai_client env_vars w in
  outcome r = Raise e
  /\ count is_generate (trace r) = 1
  /\ count is_post (trace r) = 0.
Proof.
  unfold reaches_aggregation, main. intros Hreach Hserv.
  destruct (String.eqb (MODE env_vars) "files").
  - destruct (get_commits github_client (GITHUB_PR_ID env_vars) w)
      as [[|first_commit others] w1] eqn:Hc; [contradiction|].
    destruct (get_commit_files github_client
                (last (first_commit :: others) first_commit) w1)
      as [files w2] eqn:Hf.
    destruct Hreach as [kept Hk].
    rewrite (process_files_run _ _ _ _ _ _ _ _ _ _ _ Hc).
    rewrite (analyze_commit_files_run _ _ _ _ _ _ _ _ _ _ _ _ Hf Hk).
    cbn [trace outcome]. unfold count. cbn [List.filter is_generate is_post].
    rewrite !filter_app, !filter_fetches by reflexivity. cbn [app].
    match goal with
    | |- context [review_tail ?g ?o ?p ?q ?x] =>
        destruct (review_tail_raise g o p q x e (Hserv q x)) as [-> ->]
    end.
    repeat split.
  - destruct (String.eqb (MODE env_vars) "patch"); [|contradiction].
    destruct (get_pr_patch github_client (GITHUB_PR_ID env_vars) w)
      as [patch w1] eqn:Hp.
    cbn [fst] in Hreach.
    rewrite (process_patch_run _ _ _ _ _ _ _ _ Hp Hreach).
    cbn [trace outcome]. unfold count. cbn [List.filter is_generate is_post].
    match goal with
    | |- context [review_tail ?g ?o ?p ?q ?x] =>
        destruct (review_tail_raise g o p q x e (Hserv q x)) as [-> ->]
    end.
    repeat split.
Qed.

Lemma service_error_propagates_witness :
  outcome
    (@main Demo.engine _
       (Demo.github [] [] Demo.not_found Demo.two_segments)
       (Demo.openai (Raise (Exception "RateLimitError" "quota")))
       Demo.patch_env [])
  = Raise (Exception "RateLimitError" "quota").
Proof.
  apply (@service_error_propagates Demo.engine _
           (Demo.github [] [] Demo.not_found Demo.two_segments)
           (Demo.openai (Raise (Exception "RateLimitError" "quota")))
           Demo.patch_env [] (Exception "RateLimitError" "quota")).
  - reflexivity.
  - reflexivity.
Defined.

(** X14.  File-Mode reads one commit only, the last of the list: it lists
    the files of that commit once, and every content fetch is at that commit,
    whether the run ends normally or not. *)
Theorem only_last_commit {re : RegexEngine} {W : Type}
    (github_client : GithubClient W) (openai_client : OpenAIClient W)
    (pr_id : Z) (language : string)
    (custom_prompt include_regex exclude_regex : option string)
    (w w1 : W) (first_commit : Commit) (others : list Commit) :
  get_commits github_client pr_id w = (first_commit :: others, w1) ->
  let commit := last (first_commit :: others) first_commit in
  let r := process_files github_client openai_client pr_id language
             custom_prompt include_regex exclude_regex w in
  List.filter is_file_listing (trace r) = [GetCommitFiles (sha commit)]
  /\ forall ev commit_sha,
       In ev (trace r) -> commit_of ev = Some commit_sha ->
       commit_sha = sha commit.
Proof.
  intros Hc commit r. subst r.
  rewrite (process_files_run _ _ _ _ _ _ _ _ _ _ _ Hc). fold commit.
  destruct (get_commit_files github_client commit w1) as [files w2] eqn:Hf.
  destruct (filter_files include_regex exclude_regex files) as [kept|e] eqn:Hk.
  - rewrite (analyze_commit_files_run _ _ _ _ _ _ _ _ _ _ _ _ Hf Hk).
    cbn [trace]. cbn [List.filter is_file_listing].
    rewrite filter_app, filter_fetches by reflexivity. cbn [app].
    match goal with
    | |- context [review_tail ?g ?o ?p ?q ?x] =>
        destruct (review_tail_cases g o p q x)
          as [(review & _ & ->)|(e & _ & ->)]
    end.
    + split; [reflexivity|]. intros ev s [<-|[<-|Hin]] Hs; try discriminate.
      * now injection Hs as <-.
      * apply in_app_or in Hin as [Hin|[<-|[<-|[]]]]; try discriminate.
        apply in_map_iff in Hin as (f & <- & _). now injection Hs as <-.
    + split; [reflexivity|]. intros ev s [<-|[<-|Hin]] Hs; try discriminate.
      * now injection Hs as <-.
      * apply in_app_or in Hin as [Hin|[<-|[]]]; try discriminate.
        apply in_map_iff in Hin as (f & <- & _). now injection Hs as <-.
  - rewrite (analyze_commit_files_raise _ _ _ _ _ _ _ _ _ _ _ _ Hf Hk).
    cbn [trace]. split; [reflexivity|].
    intros ev s [<-|[<-|[]]] Hs; try discriminate. now injection Hs as <-.
Qed.

Lemma only_last_commit_witness :
  List.filter is_file_listing
    (trace
       (@process_files Demo.engine _
          (Demo.github [{| sha := "0ld" |}; Demo.head_commit] [Demo.a_py]
             (fun _ => Ok "x = 1") EmptyString)
          (Demo.openai (Ok "LGTM")) 7 "en" None None None []))
  = [GetCommitFiles "c0ffee"].
Proof.
  apply (@only_last_commit Demo.engine _
           (Demo.github [{| sha := "0ld" |}; Demo.head_commit] [Demo.a_py]
              (fun _ => Ok "x = 1") EmptyString)
           (Demo.openai (Ok "LGTM")) 7 "en" None None None [] []
           {| sha := "0ld" |} [Demo.head_commit]).
  reflexivity.
Defined.

(** X15.  The two modes read different things: Patch-Mode fetches the
    patch once and never lists commits or files nor fetches a file content;
    File-Mode lists the commits once and never fetches the patch. *)
Theorem modes_read_apart {re : RegexEngine} {W : Type}
    (github_client : GithubClient W) (openai_client : OpenAIClient W)
    (env_vars : EnvVars) (w : W) :
  let t := trace (main github_client openai_client env_vars w) in
  (MODE env_vars = "patch" ->
   count is_patch_fetch t = 1 /\ count is_commit_listing t = 0
   /\ count is_file_listing t = 0 /\ count is_content_fetch t = 0)
  /\ (MODE env_vars = "files" ->
      count is_commit_listing t = 1 /\ count is_patch_fetch t = 0).
Proof.
  intros t. subst t. unfold main. split; intros ->; cbn [String.eqb Ascii.eqb Bool.eqb].
  - destruct (process_patch_cases github_client openai_client
                (GITHUB_PR_ID env_vars) (LANGUAGE env_vars)
                (CUSTOM_PROMPT env_vars) w)
      as [(w1 & ->)|(prompt & w1 & ->)].
    + cbn. repeat split.
    + cbn [trace].
      destruct (review_tail_cases github_client openai_client
                  (GITHUB_PR_ID env_vars) prompt w1)
        as [(review & _ & ->)|(e & _ & ->)]; cbn; repeat split.
  - destruct (process_files_cases github_client openai_client
                (GITHUB_PR_ID env_vars) (LANGUAGE env_vars)
                (CUSTOM_PROMPT env_vars) (INCLUDE_REGEX env_vars)
                (EXCLUDE_REGEX env_vars) w)
      as [(w1 & ->)|[(e & w2 & s & ->)|(s & kept & prompt & w3 & ->)]].
    + cbn. repeat split.
    + cbn. repeat split.
    + cbn [trace]. unfold count.
      cbn [List.filter is_commit_listing is_patch_fetch].
      rewrite !filter_app, !filter_fetches by reflexivity. cbn [app].
      destruct (review_tail_cases github_client openai_client
                  (GITHUB_PR_ID env_vars) prompt w3)
        as [(review & _ & ->)|(e & _ & ->)]; cbn; repeat split.
Qed.

Lemma modes_read_apart_witness :
  count is_patch_fetch
    (trace
       (@main Demo.engine _
          (Demo.github [Demo.head_commit] [Demo.a_py] Demo.not_found
             Demo.two_segments)
          (Demo.openai (Ok "LGTM")) Demo.patch_env []))
  = 1.
Proof.
  apply (@modes_read_apart Demo.engine _
           (Demo.github [Demo.head_commit] [Demo.a_py] Demo.not_found
              Demo.two_segments)
           (Demo.openai (Ok "LGTM")) Demo.patch_env []).
  reflexivity.
Defined.

(** X16.  In File-Mode, when every content fetch succeeds, the content sent
    for review is the units of the surviving files in the order of the file
    list, one per entry of the list: nothing is sorted or merged. *)
Theorem content_in_list_order {re : RegexEngine} {W : Type}
    (github_client : GithubClient W) (openai_client : OpenAIClient W)
    (content_of : string -> string)
    (pr_id : Z) (language : string)
    (custom_prompt include_regex exclude_regex : option string)
    (w w1 w2 : W) (first_commit : Commit) (others : list Commit)
    (files kept : list FileChange) :
  get_commits github_client pr_id w = (first_commit :: others, w1) ->
  let commit := last (first_commit :: others) first_commit in
  get_commit_files github_client commit w1 = (files, w2) ->
  filter_files include_regex exclude_regex files = Ok kept ->
  (forall file w', exists w'',
      get_file_content github_client (sha commit) file w'
      = (Ok (content_of file), w'')) ->
  List.filter is_generate
    (trace (process_files github_client openai_client pr_id language
              custom_prompt include_regex exclude_regex w))
  = [GenerateResponse
       (create_review_prompt
          (join (List.map (fun file => file_unit (filename file)
                                         (content_of (filename file)))
                          kept))
          language custom_prompt)].
Proof.
  intros Hc commit Hf Hk Hall.
  rewrite (process_files_run _ _ _ _ _ _ _ _ _ _ _ Hc). fold commit.
  rewrite (analyze_commit_files_run _ _ _ _ _ _ _ _ _ _ _ _ Hf Hk).
  cbn [trace List.filter is_generate].
  rewrite filter_app, filter_fetches by reflexivity. cbn [app].
  rewrite review_tail_generate.
  now rewrite (aggregate_all_fetched github_client content_of (sha commit) kept Hall).
Qed.

Lemma content_in_list_order_witness :
  List.filter is_generate
    (trace
       (@process_files Demo.engine _
          (Demo.github [Demo.head_commit] [Demo.b_md; Demo.a_py; Demo.b_md]
             (fun file => Ok ("# " ++ file)) EmptyString)
          (Demo.openai (Ok "LGTM")) 7 "en" None None None []))
  = [GenerateResponse
       (create_review_prompt
          (file_unit "b.md" "# b.md" ++ file_unit "a.py" "# a.py"
           ++ file_unit "b.md" "# b.md")
          "en" None)].
Proof.
  apply (@content_in_list_order Demo.engine _
           (Demo.github [Demo.head_commit] [Demo.b_md; Demo.a_py; Demo.b_md]
              (fun file => Ok ("# " ++ file)) EmptyString)
           (Demo.openai (Ok "LGTM")) (fun file => "# " ++ file)
           7 "en" None None None [] [] [] Demo.head_commit []
           [Demo.b_md; Demo.a_py; Demo.b_md] [Demo.b_md; Demo.a_py; Demo.b_md]);
    try reflexivity.
  intros file w'. exists w'. reflexivity.
Defined.

(* ================================================================== *)
(** * Further properties of the prompt builder *)
(* ================================================================== *)

Local Arguments append : simpl never.

(** Equal heads of two concatenations are set aside. *)
Ltac peel :=
  repeat match goal with
         | |- ?a ++ _ = ?a ++ _ => apply (f_equal (append a))
         end.

Ltac cancel H :=
  repeat match type of H with
         | ?a ++ _ = ?a ++ _ => apply (append_cancel_l a) in H
         end;
  match type of H with
  | ?a ++ ?u = ?b ++ ?u => apply (append_cancel_r a b u) in H
  end.

(** X17.  Whatever the custom prompt, the prompt holds the content fenced
    under [### Code] and the sentence that names the language.  A custom prompt
    that is absent or empty gives the default template; one that is present
    and not empty comes first in the prompt. *)
Theorem prompt_embeds (content language : string) (custom_prompt : option string) :
  let prompt := create_review_prompt content language custom_prompt in
  occurs_in ("### Code" ++ LF ++ "```" ++ content ++ "```" ++ LF ++ LF) prompt
  /\ occurs_in ("Write this code review in the following " ++ language ++ ":"
                ++ LF ++ LF) prompt
  /\ (absent custom_prompt -> prompt = default_prompt content language)
  /\ (forall text, custom_prompt = Some text -> text <> EmptyString ->
      starts_with text prompt = true).
Proof.
  intros prompt. subst prompt.
  assert (Hdefault :
    occurs_in ("### Code" ++ LF ++ "```" ++ content ++ "```" ++ LF ++ LF)
      (default_prompt content language)
    /\ occurs_in ("Write this code review in the following " ++ language ++ ":"
                  ++ LF ++ LF) (default_prompt content language)).
  { unfold occurs_in, default_prompt. split.
    - match goal with
      | |- exists pre post,
             ?a ++ ?b ++ ?c ++ ?d ++ ?e ++ ?f ++ ?g ++ ?h ++ ?i ++ ?j ++ ?k
             ++ ?l ++ ?m ++ ?n ++ ?rest = _ =>
          exists (a ++ b ++ c ++ d ++ e ++ f ++ g ++ h ++ i ++ j ++ k ++ l
                  ++ m ++ n)
      end.
      eexists. rewrite !append_assoc. peel. reflexivity.
    - match goal with
      | |- exists pre post, ?a ++ ?b ++ ?c ++ ?d ++ ?e ++ ?f ++ ?rest = _ =>
          exists (a ++ b ++ c ++ d ++ e ++ f)
      end.
      eexists. rewrite !append_assoc. peel. reflexivity. }
  destruct custom_prompt as [[|c p]|].
  - destruct Hdefault as [Hcode Hlang]. repeat split; try assumption.
    intros text H Hne. injection H as <-. now contradiction Hne.
  - unfold create_review_prompt. repeat split.
    + exists (String c p ++ LF), ("Write this code review in the following "
                                   ++ language ++ ":" ++ LF ++ LF).
      rewrite !append_assoc. peel. reflexivity.
    + exists (String c p ++ LF ++ "### Code" ++ LF ++ "```" ++ content
              ++ "```" ++ LF ++ LF), EmptyString.
      rewrite !append_assoc, append_empty_r. peel. reflexivity.
    + intros [H|H]; discriminate.
    + intros text H _. injection H as <-.
      unfold starts_with. now rewrite strip_prefix_here.
  - destruct Hdefault as [Hcode Hlang]. repeat split; try assumption.
    discriminate.
Qed.

Lemma prompt_embeds_witness :
  create_review_prompt "x = 1" "en" (Some EmptyString)
  = default_prompt "x = 1" "en".
Proof.
  apply (prompt_embeds "x = 1" "en" (Some EmptyString)). now right.
Defined.

(** X18.  With the language and the custom prompt fixed, different contents
    give different prompts. *)
Theorem prompt_determines_content
    (content content' language : string) (custom_prompt : option string) :
  content <> content' ->
  create_review_prompt content language custom_prompt
  <> create_review_prompt content' language custom_prompt.
Proof.
  intros Hne Heq. apply Hne. clear Hne. revert Heq.
  assert (Hdefault : default_prompt content language
                     = default_prompt content' language -> content = content').
  { unfold default_prompt. intros H. cancel H. exact H. }
  destruct custom_prompt as [[|c p]|]; try exact Hdefault.
  unfold create_review_prompt. intros H. cancel H. exact H.
Qed.

Lemma prompt_determines_content_witness :
  create_review_prompt "x = 1" "en" (Some "Be brief.")
  <> create_review_prompt "x = 2" "en" (Some "Be brief.").
Proof.
  apply (prompt_determines_content "x = 1" "x = 2" "en" (Some "Be brief.")).
  discriminate.
Defined.

(* ================================================================== *)
(** * Properties of [get_env_vars] *)
(* ================================================================== *)

Module ConfigFacts.
Import Config.

Section Dict.
Context {V : Type}.

Lemma keys_dict_set_fresh (d : list (string * V)) (k : string) (v : V) :
  ~ In k (keys d) -> keys (dict_set d k v) = (keys d ++ [k])%list.
Proof.
  induction d as [|[k' v'] d IH]; intros H; [reflexivity|].
  cbn [dict_set]. destruct (String.eqb_spec k' k) as [->|Hne].
  - exfalso. apply H. now left.
  - cbn [keys List.map fst app]. f_equal. apply IH.
    intros Hin. apply H. now right.
Qed.

Lemma dict_get_set_same (d : list (string * V)) (k : string) (v : V) :
  dict_get (dict_set d k v) k = Some v.
Proof.
  induction d as [|[k' v'] d IH]; cbn [dict_set dict_get].
  - now rewrite String.eqb_refl.
  - destruct (String.eqb k' k) eqn:E; cbn [dict_get]; rewrite E;
      [reflexivity | exact IH].
Qed.

Lemma dict_get_set_other (d : list (string * V)) (k k' : string) (v : V) :
  k <> k' -> dict_get (dict_set d k v) k' = dict_get d k'.
Proof.
  intros Hne. induction d as [|[k0 v0] d IH]; cbn [dict_set dict_get].
  - apply String.eqb_neq in Hne. now rewrite Hne.
  - destruct (String.eqb_spec k0 k) as [->|H0]; cbn [dict_get].
    + apply String.eqb_neq in Hne. now rewrite Hne.
    + now rewrite IH.
Qed.

End Dict.

Section Loading.

Context {F : Type}.
Variable int_of_str : string -> result Z.
Variable float_of_str : string -> result F.
Variable get_env_variable : string -> bool -> result (option string).

(** One turn of the loop, when it does not raise. *)
Lemma load_step var t req rest acc d :
  load int_of_str float_of_str get_env_variable ((var, (t, req)) :: rest) acc = Ok d ->
  exists text entry,
    get_env_variable var req = Ok text
    /\ stored int_of_str float_of_str t text entry
    /\ load int_of_str float_of_str get_env_variable rest (dict_set acc var entry) = Ok d.
Proof.
  cbn [Config.load].
  destruct (get_env_variable var req) as [[[|c s]|]|e]; try discriminate.
  - intros H. exists (Some EmptyString), None. now repeat split.
  - destruct (convert int_of_str float_of_str t (String c s)) as [v|e] eqn:Ec.
    + intros H. exists (Some (String c s)), (Some v). repeat split; [|exact H].
      exists v. now split.
    + destruct (is_value_error e); discriminate.
  - intros H. exists None, None. now repeat split.
Qed.

Lemma load_keys (vars : list (string * (pytype * bool))) :
  forall acc d,
    NoDup (keys acc ++ List.map fst vars)%list ->
    load int_of_str float_of_str get_env_variable vars acc = Ok d ->
    keys d = (keys acc ++ List.map fst vars)%list.
Proof.
  induction vars as [|[var [t req]] rest IH]; intros acc d Hnd H.
  - injection H as <-. cbn. now rewrite app_nil_r.
  - apply load_step in H as (text & entry & _ & _ & H).
    cbn [List.map fst] in *.
    assert (Hfresh : ~ In var (keys acc)).
    { intros Hin. apply NoDup_remove_2 in Hnd. apply Hnd.
      apply in_or_app. now left. }
    pose proof (keys_dict_set_fresh acc var entry Hfresh) as Hk.
    assert (Hnd' : NoDup (keys (dict_set acc var entry) ++ List.map fst rest)%list)
      by (rewrite Hk, <- app_assoc; exact Hnd).
    rewrite (IH _ _ Hnd' H), Hk, <- app_assoc. reflexivity.
Qed.

Lemma load_entries (vars : list (string * (pytype * bool))) :
  forall acc d,
    NoDup (List.map fst vars) ->
    load int_of_str float_of_str get_env_variable vars acc = Ok d ->
    (forall k, ~ In k (List.map fst vars) -> dict_get d k = dict_get acc k)
    /\ (forall var t req,
          In (var, (t, req)) vars ->
          exists text entry,
            get_env_variable var req = Ok text
            /\ dict_get d var = Some entry
            /\ stored int_of_str float_of_str t text entry).
Proof.
  induction vars as [|[var [t req]] rest IH]; intros acc d Hnd H.
  - injection H as <-. split; [reflexivity | intros ? ? ? []].
  - apply load_step in H as (text & entry & Hget & Hst & H).
    cbn [List.map fst] in Hnd. inversion Hnd as [|x l Hfresh Hnd']; subst.
    destruct (IH _ _ Hnd' H) as [Hkeep Hin]. split.
    + intros k Hk. rewrite Hkeep.
      * apply dict_get_set_other. intros ->. apply Hk. now left.
      * intros Hk'. apply Hk. now right.
    + intros var' t' req' [Heq|Hin'].
      * injection Heq as <- <- <-. exists text, entry.
        repeat split; try assumption.
        rewrite (Hkeep var Hfresh). apply dict_get_set_same.
      * now apply Hin.
Qed.

Lemma load_raise (vars : list (string * (pytype * bool))) :
  forall acc e,
    load int_of_str float_of_str get_env_variable vars acc = Raise e ->
    (exists var t req,
        In (var, (t, req)) vars /\ get_env_variable var req = Raise e)
    \/ (exists var t req text e',
          In (var, (t, req)) vars /\ t <> py_str
          /\ get_env_variable var req = Ok (Some text)
          /\ text <> EmptyString
          /\ convert int_of_str float_of_str t text = Raise e'
          /\ e = if is_value_error e' then type_error var t else e').
Proof.
  induction vars as [|[var [t req]] rest IH]; intros acc e H; [discriminate|].
  cbn [Config.load] in H.
  destruct (get_env_variable var req) as [[[|c s]|]|e0] eqn:Hget.
  - apply IH in H as [(v & t' & r & Hin & Hr)|(v & t' & r & x & e' & Hin & Hrest)].
    + left. exists v, t', r. split; [now right | exact Hr].
    + right. exists v, t', r, x, e'. split; [now right | exact Hrest].
  - destruct (convert int_of_str float_of_str t (String c s)) as [v|e'] eqn:Ec.
    + apply IH in H as [(v' & t' & r & Hin & Hr)|(v' & t' & r & x & e' & Hin & Hrest)].
      * left. exists v', t', r. split; [now right | exact Hr].
      * right. exists v', t', r, x, e'. split; [now right | exact Hrest].
    + right. exists var, t, req, (String c s), e'.
      split; [now left|]. split; [intros ->; discriminate Ec|].
      split; [exact Hget|]. split; [discriminate|]. split; [exact Ec|].
      destruct (is_value_error e'); now injection H as <-.
  - apply IH in H as [(v & t' & r & Hin & Hr)|(v & t' & r & x & e' & Hin & Hrest)].
    + left. exists v, t', r. split; [now right | exact Hr].
    + right. exists v, t', r, x, e'. split; [now right | exact Hrest].
  - injection H as <-. left. exists var, t, req. split; [now left | exact Hget].
Qed.

End Loading.

Lemma variables_distinct : NoDup (List.map fst variables).
Proof.
  unfold variables. cbn [List.map fst].
  repeat (constructor;
          [cbn [In]; intros H;
           repeat (destruct H as [H|H]; [discriminate|]); exact H |]).
  constructor.
Qed.

Lemma get_env_vars_loop {F : Type}
    (int_of_str : string -> result Z) (float_of_str : string -> result F)
    (get_env_variable : string -> bool -> result (option string)) :
  get_env_vars int_of_str float_of_str get_env_variable
  = load int_of_str float_of_str get_env_variable variables [].
Proof. reflexivity. Qed.

End ConfigFacts.

(** X19.  When [get_env_vars] returns, the dictionary has an entry for each
    of the twelve variables of the table, in the order of the table, and no
    other. *)
Theorem get_env_vars_keys {F : Type}
    (int_of_str : string -> result Z) (float_of_str : string -> result F)
    (get_env_variable : string -> bool -> result (option string))
    (env_vars : list (string * option (Config.value F))) :
  Config.get_env_vars int_of_str float_of_str get_env_variable = Ok env_vars ->
  Config.keys env_vars = List.map fst Config.variables.
Proof.
  intros H. rewrite ConfigFacts.get_env_vars_loop in H.
  apply ConfigFacts.load_keys in H; [exact H|].
  exact ConfigFacts.variables_distinct.
Qed.

Lemma get_env_vars_keys_witness :
  match Config.get_env_vars Config.demo_int Config.demo_float
          (Config.demo_environ "42") with
  | Ok env_vars =>
      Config.keys env_vars
      = ["OPENAI_API_KEY"; "GITHUB_TOKEN"; "GITHUB_PR_ID"; "OPENAI_MODEL";
         "OPENAI_TEMPERATURE"; "OPENAI_MAX_TOKENS"; "MODE"; "LANGUAGE";
         "CUSTOM_PROMPT"; "GITHUB_BASE_URL"; "INCLUDE_REGEX"; "EXCLUDE_REGEX"]
  | Raise _ => False
  end.
Proof.
  destruct (Config.get_env_vars Config.demo_int Config.demo_float
              (Config.demo_environ "42")) as [env_vars|e] eqn:E.
  - exact (get_env_vars_keys _ _ _ env_vars E).
  - vm_compute in E. discriminate.
Defined.

(** X20.  When [get_env_vars] returns, the entry of each variable of the
    table is [None] if the text of the variable is absent or empty, required
    or not, and is otherwise the text converted to the type of the table (the
    text itself for a [str] variable). *)
Theorem get_env_vars_entries {F : Type}
    (int_of_str : string -> result Z) (float_of_str : string -> result F)
    (get_env_variable : string -> bool -> result (option string))
    (env_vars : list (string * option (Config.value F)))
    (var : string) (t : Config.pytype) (required : bool) :
  Config.get_env_vars int_of_str float_of_str get_env_variable = Ok env_vars ->
  In (var, (t, required)) Config.variables ->
  exists text entry,
    get_env_variable var required = Ok text
    /\ Config.dict_get env_vars var = Some entry
    /\ Config.stored int_of_str float_of_str t text entry.
Proof.
  intros H Hin. rewrite ConfigFacts.get_env_vars_loop in H.
  apply ConfigFacts.load_entries in H; [|exact ConfigFacts.variables_distinct].
  destruct H as [_ H]. now apply H.
Qed.

(** The text ["42"] of [GITHUB_PR_ID] is stored as the integer, and the
    empty text of [CUSTOM_PROMPT] as [None]. *)
Lemma get_env_vars_entries_witness :
  match Config.get_env_vars Config.demo_int Config.demo_float
          (Config.demo_environ "42") with
  | Ok env_vars =>
      exists text entry,
        Config.demo_environ "42" "CUSTOM_PROMPT" false = Ok text
        /\ Config.dict_get env_vars "CUSTOM_PROMPT" = Some entry
        /\ Config.stored Config.demo_int Config.demo_float Config.py_str
             text entry
  | Raise _ => False
  end.
Proof.
  destruct (Config.get_env_vars Config.demo_int Config.demo_float
              (Config.demo_environ "42")) as [env_vars|e] eqn:E.
  - apply (get_env_vars_entries _ _ _ env_vars "CUSTOM_PROMPT" Config.py_str
             false E).
    unfold Config.variables. cbn [In]. do 8 right. now left.
  - vm_compute in E. discriminate.
Defined.

Example get_env_vars_demo :
  match Config.get_env_vars Config.demo_int Config.demo_float
          (Config.demo_environ "42") with
  | Ok env_vars =>
      Config.dict_get env_vars "GITHUB_PR_ID" = Some (Some (Config.VInt 42))
      /\ Config.dict_get env_vars "CUSTOM_PROMPT" = Some None
      /\ Config.dict_get env_vars "MODE" = Some (Some (Config.VStr "patch"))
  | Raise _ => False
  end.
Proof. vm_compute. repeat split. Qed.

(** X21.  When [get_env_vars] raises, either the exception is one that
    [get_env_variable] raised on a variable of the table, or the text of an
    [int] or [float] variable did not convert: a [ValueError] of the
    conversion is replaced by the [ValueError] that names the variable and its
    type, any other exception is passed on.  A [str] variable never fails to
    convert. *)
Theorem get_env_vars_raise_origin {F : Type}
    (int_of_str : string -> result Z) (float_of_str : string -> result F)
    (get_env_variable : string -> bool -> result (option string)) (e : exn) :
  Config.get_env_vars int_of_str float_of_str get_env_variable = Raise e ->
  (exists var t required,
      In (var, (t, required)) Config.variables
      /\ get_env_variable var required = Raise e)
  \/ (exists var t required text e',
        In (var, (t, required)) Config.variables /\ t <> Config.py_str
        /\ get_env_variable var required = Ok (Some text)
        /\ text <> EmptyString
        /\ Config.convert int_of_str float_of_str t text = Raise e'
        /\ e = if Config.is_value_error e' then Config.type_error var t else e').
Proof.
  intros H. rewrite ConfigFacts.get_env_vars_loop in H.
  now apply ConfigFacts.load_raise in H.
Qed.

(** A pull-request number that is no number. *)
Lemma get_env_vars_raise_origin_witness :
  (exists var t required,
      In (var, (t, required)) Config.variables
      /\ Config.demo_environ "4x2" var required
         = Raise (Config.type_error "GITHUB_PR_ID" Config.py_int))
  \/ (exists var t required text e',
        In (var, (t, required)) Config.variables /\ t <> Config.py_str
        /\ Config.demo_environ "4x2" var required = Ok (Some text)
        /\ text <> EmptyString
        /\ Config.convert Config.demo_int Config.demo_float t text = Raise e'
        /\ Config.type_error "GITHUB_PR_ID" Config.py_int
           = if Config.is_value_error e' then Config.type_error var t else e').
Proof.
  apply (get_env_vars_raise_origin Config.demo_int Config.demo_float
           (Config.demo_environ "4x2")).
  vm_compute. reflexivity.
Defined.

(** X22.  Every comment a run of [main] posts is on the pull request of the
    settings and is either the notice of the empty patch or the banner
    followed by a review; in particular Patch-Mode never posts the comment of
    the handler of lines 214-219. *)
Theorem comments_posted {re : RegexEngine} {W : Type}
    (github_client : GithubClient W) (openai_client : OpenAIClient W)
    (env_vars : EnvVars) (w : W) (pr_id : Z) (body : string) :
  In (PostComment pr_id body)
     (trace (main github_client openai_client env_vars w)) ->
  pr_id = GITHUB_PR_ID env_vars
  /\ (body = no_changes_comment \/ exists review, body = review_comment review).
Proof.
  unfold main.
  destruct (String.eqb (MODE env_vars) "files").
  - destruct (process_files_cases github_client openai_client
                (GITHUB_PR_ID env_vars) (LANGUAGE env_vars)
                (CUSTOM_PROMPT env_vars) (INCLUDE_REGEX env_vars)
                (EXCLUDE_REGEX env_vars) w)
      as [(w1 & ->)|[(e & w2 & s & ->)|(s & kept & prompt & w3 & ->)]];
      cbn [trace].
    + intros [H|[]]. discriminate.
    + intros [H|[H|[]]]; discriminate.
    + intros [H|[H|H]]; try discriminate.
      apply in_app_or in H as [H|H].
      * apply in_map_iff in H as (f & Hf & _). discriminate.
      * destruct (review_tail_cases github_client openai_client
                    (GITHUB_PR_ID env_vars) prompt w3)
          as [(review & _ & Ht)|(e & _ & Ht)]; rewrite Ht in H.
        -- destruct H as [H|[H|[]]]; [discriminate|].
           injection H as <- <-. split; [reflexivity | right; now exists review].
        -- destruct H as [H|[]]. discriminate.
  - destruct (String.eqb (MODE env_vars) "patch").
    + destruct (process_patch_cases github_client openai_client
                  (GITHUB_PR_ID env_vars) (LANGUAGE env_vars)
                  (CUSTOM_PROMPT env_vars) w)
        as [(w1 & ->)|(prompt & w1 & ->)]; cbn [trace].
      * intros [H|[H|[]]]; [discriminate|].
        injection H as <- <-. split; [reflexivity | now left].
      * intros [H|H]; [discriminate|].
        destruct (review_tail_cases github_client openai_client
                    (GITHUB_PR_ID env_vars) prompt w1)
          as [(review & _ & Ht)|(e & _ & Ht)]; rewrite Ht in H.
        -- destruct H as [H|[H|[]]]; [discriminate|].
           injection H as <- <-. split; [reflexivity | right; now exists review].
        -- destruct H as [H|[]]. discriminate.
    + intros [].
Qed.

Lemma comments_posted_witness :
  7%Z = 7%Z
  /\ (review_comment "LGTM" = no_changes_comment
      \/ exists review, review_comment "LGTM" = review_comment review).
Proof.
  apply (@comments_posted Demo.engine _
           (Demo.github [] [] Demo.not_found Demo.two_segments)
           (Demo.openai (Ok "LGTM")) Demo.patch_env [] 7 (review_comment "LGTM")).
  vm_compute. right. right. left. reflexivity.
Defined.
